(** * npg_sentry: the token model (lib/model.js)

    A shallow embedding of the token lifecycle engine of npg_sentry:
    argument validation, token generation, and the four exported
    operations createToken, revokeToken, listTokens, validateToken together
    with validateUser.

    Promises are rendered as a state-and-error monad over the two MongoDB
    collections the module talks to; a rejected promise is [Rejected].
    Every call that reaches the random source or the database leaves an
    event in the world's [io] log, so that "before any I/O" is a statement
    about that log.  Calls to the logger are not modelled.  The store is
    taken to be connected and to answer: connection and driver failures
    are outside the model, and so is interleaving of concurrent calls. *)

From Stdlib Require Import ZArith Lia Ascii String OrdersEx.
From Stdlib.Strings Require Import Byte.
From stdpp Require Import gmap strings list sorting.

Local Open Scope string_scope.
Local Open Scope Z_scope.
Local Open Scope list_scope.

(** ** JavaScript values handed to the exported functions *)

Inductive JsValue :=
  | JsUndefined
  | JsNull
  | JsBoolean (b : bool)
  | JsNumber (n : Z)
  | JsString (s : string)
  | JsArray (xs : list string).

(** Truthiness, as tested by [assert(value, ...)]. *)
Definition truthy (v : JsValue) : bool :=
  match v with
  | JsUndefined => false
  | JsNull => false
  | JsBoolean b => b
  | JsNumber n => negb (n =? 0)
  | JsString s => negb (String.eqb s "")
  | JsArray _ => true
  end.

Definition typeof (v : JsValue) : string :=
  match v with
  | JsUndefined => "undefined"
  | JsNull => "object"
  | JsBoolean _ => "boolean"
  | JsNumber _ => "number"
  | JsString _ => "string"
  | JsArray _ => "object"
  end.

Definition instanceof_Array (v : JsValue) : bool :=
  match v with JsArray _ => true | _ => false end.

(** ** Errors and promise outcomes *)

(** The two message constants model.js takes from lib/constants.js.  Their
    text is never inspected by the model, so they stay symbolic.

    [Uncaught e] is not the rejection of a promise: [e] was thrown where
    nothing catches it, in a callback of the event loop, and the process
    ends; no promise of the call is settled for any caller to see. *)
Inductive MessageConstant := UNEXPECTED_NUM_DOCS | USER_NOT_TOKEN_OWNER.

Inductive Exn :=
  | AssertionError (msg : string)
  | DbError (msg : MessageConstant)
  | Error (msg : MessageConstant)
  | TypeError (msg : string)
  | SystemError (msg : string)
  | Uncaught (e : Exn).

Inductive Outcome (A : Type) :=
  | Resolved (a : A)
  | Rejected (e : Exn).
Arguments Resolved {A} a.
Arguments Rejected {A} e.

(** ** String.prototype.trim

    A string is the UTF-8 encoding of the JavaScript string.  The white
    space that trim strips is ECMAScript's WhiteSpace and LineTerminator:
    TAB, LF, VT, FF, CR and SPACE in one byte, U+00A0 in two, and U+1680,
    U+2000 to U+200A, U+2028, U+2029, U+202F, U+205F, U+3000 and U+FEFF in
    three. *)

(** The white space code points of three bytes. *)
Definition white_space3 (n0 n1 n2 : N) : bool :=
  ((n0 =? 225) && (n1 =? 154) && (n2 =? 128)
   || (n0 =? 226) && (n1 =? 128)
      && ((128 <=? n2) && (n2 <=? 138) || (n2 =? 168) || (n2 =? 169) || (n2 =? 175))
   || (n0 =? 226) && (n1 =? 129) && (n2 =? 159)
   || (n0 =? 227) && (n1 =? 128) && (n2 =? 128)
   || (n0 =? 239) && (n1 =? 187) && (n2 =? 191))%N.

(** The number of bytes of the white space code point the string starts
    with; 0 when it starts with none. *)
Definition white_space_length (s : string) : nat :=
  match s with
  | EmptyString => 0
  | String c0 s1 =>
      let n0 := N_of_ascii c0 in
      if ((9 <=? n0) && (n0 <=? 13) || (n0 =? 32))%N then 1
      else
        match s1 with
        | EmptyString => 0
        | String c1 s2 =>
            let n1 := N_of_ascii c1 in
            if ((n0 =? 194) && (n1 =? 160))%N then 2
            else
              match s2 with
              | EmptyString => 0
              | String c2 _ =>
                  if white_space3 n0 n1 (N_of_ascii c2) then 3 else 0
              end
        end
  end%nat.

(** [skip] counts the bytes still to drop of a code point found white. *)
Fixpoint trimStart_from (skip : nat) (s : string) : string :=
  match s with
  | EmptyString => EmptyString
  | String c s' =>
      match skip with
      | S k => trimStart_from k s'
      | O =>
          match white_space_length s with
          | O => s
          | S k => trimStart_from k s'
          end
      end
  end.

Definition trimStart (s : string) : string := trimStart_from 0 s.

Fixpoint all_white_space_from (skip : nat) (s : string) : bool :=
  match s with
  | EmptyString => true
  | String c s' =>
      match skip with
      | S k => all_white_space_from k s'
      | O =>
          match white_space_length s with
          | O => false
          | S k => all_white_space_from k s'
          end
      end
  end.

(** A string of white space code points only. *)
Definition all_white_space (s : string) : bool := all_white_space_from 0 s.

(** What is left of a string ends where only white space follows. *)
Fixpoint trimEnd (s : string) : string :=
  match s with
  | EmptyString => EmptyString
  | String c s' => if all_white_space s then EmptyString else String c (trimEnd s')
  end.

Definition trim (s : string) : string := trimEnd (trimStart s).

(** A string that is not empty and holds white space only. *)
Definition blank (s : string) : Prop :=
  s <> "" /\ all_white_space s = true.

(** ** Argument validation: _validate and _validateNoEmptyString *)

Definition assert (cond : bool) (msg : string) : Outcome unit :=
  if cond then Resolved tt else Rejected (AssertionError msg).

Definition obind {A B} (x : Outcome A) (f : A -> Outcome B) : Outcome B :=
  match x with
  | Resolved a => f a
  | Rejected e => Rejected e
  end.

(** [type] is [None] when the caller leaves the fourth argument out; an
    empty string is falsy just the same. *)
Definition _validate (scope name : string) (value : JsValue)
    (type : option string) : Outcome unit :=
  obind (assert (truthy value) (scope +:+ ": " +:+ name +:+ " is not defined"))
    (fun _ =>
       match type with
       | Some t =>
           if String.eqb t "" then Resolved tt
           else assert (String.eqb (typeof value) t)
                  (scope +:+ ": " +:+ name +:+ " must be a " +:+ t)
       | None => Resolved tt
       end).

(** On success the validated string is handed back, so that the callers
    need no second case analysis on the value.  Only strings have a trim
    method. *)
Definition _validateNoEmptyString (scope name : string) (value : JsValue)
    (type : option string) : Outcome string :=
  obind (_validate scope name value type)
    (fun _ =>
       match value with
       | JsString s =>
           obind (assert (negb (String.eqb (trim s) ""))
                    (scope +:+ ": " +:+ name +:+ " cannot be empty string"))
             (fun _ => Resolved s)
       | _ => Rejected (TypeError "value.trim is not a function")
       end).

(** ** Token generation: Buffer.toString('base64') and the two replaces *)

Definition base64_alphabet : string :=
  "ABCDEFGHIJKLMNOPQRSTUVWXYZabcdefghijklmnopqrstuvwxyz0123456789+/".

Definition base64_char (i : Z) : ascii :=
  match String.get (Z.to_nat i) base64_alphabet with
  | Some c => c
  | None => "="%char
  end.

Definition byte_val (b : byte) : Z := Z.of_N (Byte.to_N b).

Fixpoint base64 (buf : list byte) : string :=
  match buf with
  | [] => ""
  | [b0] =>
      let x0 := byte_val b0 in
      String (base64_char (Z.shiftr x0 2))
        (String (base64_char (Z.shiftl (Z.land x0 3) 4)) "==")
  | [b0; b1] =>
      let x0 := byte_val b0 in
      let x1 := byte_val b1 in
      String (base64_char (Z.shiftr x0 2))
        (String (base64_char (Z.lor (Z.shiftl (Z.land x0 3) 4) (Z.shiftr x1 4)))
           (String (base64_char (Z.shiftl (Z.land x1 15) 2)) "="))
  | b0 :: b1 :: b2 :: rest =>
      let x0 := byte_val b0 in
      let x1 := byte_val b1 in
      let x2 := byte_val b2 in
      String (base64_char (Z.shiftr x0 2))
        (String (base64_char (Z.lor (Z.shiftl (Z.land x0 3) 4) (Z.shiftr x1 4)))
           (String (base64_char (Z.lor (Z.shiftl (Z.land x1 15) 2) (Z.shiftr x2 6)))
              (String (base64_char (Z.land x2 63)) (base64 rest))))
  end.

(** [s.replace(/c/g, d)] for a single character [c]. *)
Fixpoint replace_all (c d : ascii) (s : string) : string :=
  match s with
  | EmptyString => EmptyString
  | String a s' => String (if Ascii.eqb a c then d else a) (replace_all c d s')
  end.

Definition token_of_buffer (buf : list byte) : string :=
  replace_all "+" "-" (replace_all "/" "_" (base64 buf)).

(** Letters, digits, '-' and '_'. *)
Definition url_safe (c : ascii) : bool :=
  let n := N_of_ascii c in
  ((65 <=? n) && (n <=? 90) || (97 <=? n) && (n <=? 122)
   || (48 <=? n) && (n <=? 57) || (n =? 45) || (n =? 95))%N.

Fixpoint string_forall (p : ascii -> bool) (s : string) : bool :=
  match s with
  | EmptyString => true
  | String c s' => p c && string_forall p s'
  end.

(** ** Constants (lib/constants.js) *)

Module constants.

(** Modelled from the spec: lib/constants.js is not among the sources.  The
    collection names are the ones the tests use next to the constants, the
    status values are the spec's VALID and REVOKED in the lower case of
    app.js' remark that the status field is set to 'revoked', and the
    validity of a token is the spec's seven days. *)
Definition COLLECTION_TOKENS : string := "tokens".
Definition COLLECTION_USERS : string := "users".
Definition TOKEN_STATUS_VALID : string := "valid".
Definition TOKEN_STATUS_REVOKED : string := "revoked".
Definition TOKEN_DURATION : Z := 7.
Definition TOKEN_DURATION_UNIT : string := "days".

End constants.

(** ** Time: moment

    An instant is a number of milliseconds since the epoch.  A string made
    by [format()] carries no milliseconds; it is kept as the instant it
    denotes (the offsets of the zone being whole quarters of an hour, as
    moment prints them). *)
Module moment.

(** The local time zone of the server, as ECMAScript's Date sees it: the
    offset from UTC, in milliseconds, in force at an instant, and the
    offset by which a local time value is taken back to UTC. *)
Record Zone := mkZone {
  offsetAt : Z -> Z;
  offsetOfLocal : Z -> Z
}.

Definition toLocal (zone : Zone) (t : Z) : Z := t + offsetAt zone t.

Definition toUTC (zone : Zone) (local : Z) : Z := local - offsetOfLocal zone local.

Definition utc : Zone := mkZone (fun _ => 0) (fun _ => 0).

(** Europe/London around the start of summer time in 2017: one hour ahead
    of UTC from 26 March, 01:00 UTC; local times of the skipped hour are
    read with the winter offset. *)
Definition london_spring_2017 : Zone :=
  mkZone (fun t => if 1490490000000 <=? t then 3600000 else 0)
         (fun local => if 1490493600000 <=? local then 3600000 else 0).

(** A duration keeps its days apart from its milliseconds.  Months and
    years, which moment keeps apart too, are not modelled. *)
Record Duration := mkDuration {
  _days : Z;
  _milliseconds : Z
}.

Definition duration (n : Z) (unit : string) : Duration :=
  if String.eqb unit "weeks" then mkDuration (7 * n) 0
  else if String.eqb unit "days" then mkDuration n 0
  else if String.eqb unit "hours" then mkDuration 0 (n * 3600000)
  else if String.eqb unit "minutes" then mkDuration 0 (n * 60000)
  else if String.eqb unit "seconds" then mkDuration 0 (n * 1000)
  else if String.eqb unit "milliseconds" then mkDuration 0 n
  else mkDuration 0 0.

(** [mom.add(duration)]: the days go to the date of the local calendar
    (Date.prototype.setDate, which keeps the local time of day), then the
    milliseconds to the instant. *)
Definition add (zone : Zone) (t : Z) (d : Duration) : Z :=
  let t' :=
    if _days d =? 0 then t
    else toUTC zone (toLocal zone t + _days d * 86400000) in
  t' + _milliseconds d.

Definition format (t : Z) : Z := 1000 * (t / 1000).

Definition isAfter (t other : Z) : bool := other <? t.

End moment.

(** ** Documents of the two collections *)

(** A field of a history entry: a formatted time or a text. *)
Inductive FieldValue :=
  | Timestamp (t : Z)
  | Text (s : string).

(** A history entry is a plain object: a finite map from field names. *)
Abbreviation HistEntry := (gmap string FieldValue).

(** Token documents.  [user] and [expiryTime] may be missing from a stored
    document; a missing [hist] is the empty list (which is how [$push]
    treats it). *)
Module TokenDoc.
Record t := mk {
  token : string;
  status : string;
  hist : list HistEntry;
  user : option string;
  expiryTime : option Z
}.
End TokenDoc.

Module UserDoc.
Record t := mk {
  user : string;
  groups : option (list string)
}.
End UserDoc.

(** ** The world: both collections and the log of I/O performed *)

Inductive Query :=
  | ByToken (t : string)
  | ByUser (u : string).

Inductive IoEvent :=
  | RandomBytes (n : nat)
  | Count (coll : string) (q : Query)
  | Next (coll : string) (q : Query)
  | ToArray (coll : string) (q : Query)
  | InsertOne (coll : string) (tok : string)
  | FindOneAndUpdate (coll : string) (q : Query).

Record World := mkWorld {
  tokens : list TokenDoc.t;
  users : list UserDoc.t;
  io : list IoEvent
}.

(** ** Promises as a state-and-error monad *)

Definition M (A : Type) : Type := World -> Outcome A * World.

Definition ret {A} (a : A) : M A := fun w => (Resolved a, w).

Definition reject {A} (e : Exn) : M A := fun w => (Rejected e, w).

Definition bind {A B} (m : M A) (k : A -> M B) : M B :=
  fun w =>
    match m w with
    | (Resolved a, w') => k a w'
    | (Rejected e, w') => (Rejected e, w')
    end.

Definition lift {A} (o : Outcome A) : M A := fun w => (o, w).

Definition perform (ev : IoEvent) : M unit :=
  fun w => (Resolved tt, mkWorld (tokens w) (users w) (io w ++ [ev])).

Notation "'let*' x ':=' m 'in' k" := (bind m (fun x => k))
  (at level 10, x name, m at level 100, k at level 200).

(** ** Cursors *)

(** A cursor holds its query; the documents are fetched when it is counted
    or read. *)
Record Cursor (A : Type) := mkCursor {
  coll : string;
  query : Query;
  docs : World -> list A
}.
Arguments mkCursor {A} coll query docs.
Arguments coll {A} c.
Arguments query {A} c.
Arguments docs {A} c w.

Definition count {A} (c : Cursor A) : M nat :=
  let* _ := perform (Count (coll c) (query c)) in
  fun w => (Resolved (length (docs c w)), w).

(** [cursor.next()]: the first document, or null. *)
Definition next {A} (c : Cursor A) : M (option A) :=
  let* _ := perform (Next (coll c) (query c)) in
  fun w => (Resolved (head (docs c w)), w).

(** Reading a property of what [next()] gave: null has none. *)
Definition deref {A} (doc : option A) : M A :=
  match doc with
  | Some d => ret d
  | None => reject (TypeError "Cannot read property of null")
  end.

Definition findMatchingTokens (token : string) : M (Cursor TokenDoc.t) :=
  ret (mkCursor constants.COLLECTION_TOKENS (ByToken token)
         (fun w => filter (fun d => TokenDoc.token d = token) (tokens w))).

Definition getDocument {A} (cursor : Cursor A) : M (option A) := next cursor.

Definition cursorHasExactlyOneDoc {A} (cursor : Cursor A) : M unit :=
  let* n := count cursor in
  if Nat.eqb n 1 then ret tt else reject (DbError UNEXPECTED_NUM_DOCS).

(** ** createToken *)

(** When randomBytes reports an error the callback calls [reject(err)] and,
    for want of a return, goes on to [buf.toString('base64')] with [buf]
    undefined: a TypeError thrown in the callback, where nothing catches
    it.  The process ends before any handler sees the rejection. *)
Definition generateTokenPromise (random : Outcome (list byte)) : M string :=
  let* _ := perform (RandomBytes 24) in
  match random with
  | Rejected err =>
      reject (Uncaught (TypeError "Cannot read property 'toString' of undefined"))
  | Resolved buf => ret (token_of_buffer buf)
  end.

(** [zone] is the server's local time zone and [now] the clock reading. *)
Definition _buildToken (zone : moment.Zone) (now : Z)
    (token user justification : string) : TokenDoc.t :=
  let validDuration :=
    moment.duration constants.TOKEN_DURATION constants.TOKEN_DURATION_UNIT in
  TokenDoc.mk
    token
    constants.TOKEN_STATUS_VALID
    [ <["time" := Timestamp (moment.format now)]>
        (<["reason" := Text justification]> ∅) ]
    (Some user)
    (Some (moment.format (moment.add zone now validDuration))).

Definition insertOne (doc : TokenDoc.t) : M unit :=
  let* _ := perform (InsertOne constants.COLLECTION_TOKENS (TokenDoc.token doc)) in
  fun w => (Resolved tt, mkWorld (tokens w ++ [doc]) (users w) (io w)).

(** [zone] is the server's local time zone, [now] the clock reading and
    [random] what randomBytes(24) hands to its callback. *)
Definition createToken (zone : moment.Zone) (now : Z)
    (random : Outcome (list byte)) (user justification : JsValue)
    : M TokenDoc.t :=
  let fName := "createToken" in
  let* args :=
    lift (obind (_validateNoEmptyString fName "user" user (Some "string"))
            (fun u =>
               obind (_validateNoEmptyString fName "justification"
                        justification (Some "string"))
                 (fun j => Resolved (u, j)))) in
  let '(u, j) := args in
  let* token := generateTokenPromise random in
  let doc := _buildToken zone now token u j in
  let* _ := insertOne doc in
  ret doc.

(** ** revokeToken *)

(** The update object: [$set] on status and [$push] on hist. *)
Record Update := mkUpdate {
  set_status : string;
  push_hist : HistEntry
}.

Definition applyUpdate (update : Update) (d : TokenDoc.t) : TokenDoc.t :=
  TokenDoc.mk
    (TokenDoc.token d)
    (set_status update)
    (TokenDoc.hist d ++ [push_hist update])
    (TokenDoc.user d)
    (TokenDoc.expiryTime d).

(** The first document with the token is updated; the updated document is
    returned (returnOriginal: false), or null when none matches. *)
Fixpoint findOneAndUpdate (token : string) (update : Update)
    (l : list TokenDoc.t) : option TokenDoc.t * list TokenDoc.t :=
  match l with
  | [] => (None, [])
  | d :: l' =>
      if decide (TokenDoc.token d = token)
      then (Some (applyUpdate update d), applyUpdate update d :: l')
      else
        let '(r, l'') := findOneAndUpdate token update l' in
        (r, d :: l'')
  end.

Definition _updateToken (doc : TokenDoc.t) (update : Update)
    : M (option TokenDoc.t) :=
  let* _ := perform (FindOneAndUpdate constants.COLLECTION_TOKENS
                       (ByToken (TokenDoc.token doc))) in
  fun w =>
    let '(value, l) := findOneAndUpdate (TokenDoc.token doc) update (tokens w) in
    (Resolved value, mkWorld l (users w) (io w)).

Definition revokeEntry (now : Z) (justification : string) : HistEntry :=
  <["time" := Timestamp (moment.format now)]>
    (<["reason" := Text justification]> ∅).

Definition revokeToken (now : Z) (user token justification : JsValue)
    : M (option TokenDoc.t) :=
  let fName := "revokeToken" in
  let* args :=
    lift (obind (_validateNoEmptyString fName "user" user (Some "string"))
            (fun u =>
               obind (_validateNoEmptyString fName "token" token (Some "string"))
                 (fun t =>
                    obind (_validateNoEmptyString fName "justification"
                             justification (Some "string"))
                      (fun j => Resolved (u, t, j))))) in
  let '(u, t, j) := args in
  let* p_cursor := findMatchingTokens t in
  let* _ := cursorHasExactlyOneDoc p_cursor in
  let* p_document := getDocument p_cursor in
  let* doc := deref p_document in
  let* _ :=
    if decide (Some u = TokenDoc.user doc) then ret tt
    else reject (Error USER_NOT_TOKEN_OWNER) in
  let update :=
    mkUpdate constants.TOKEN_STATUS_REVOKED (revokeEntry now j) in
  _updateToken doc update.

(** ** listTokens *)

(** [sort('status', -1)]: descending on the status string, compared byte
    by byte. *)
Definition status_desc (a b : TokenDoc.t) : Prop :=
  String_as_OT.compare (TokenDoc.status a) (TokenDoc.status b) <> Lt.

#[global] Instance status_desc_dec : RelDecision status_desc.
Proof. intros a b. unfold status_desc. solve_decision. Defined.

Definition listTokens (user : JsValue) : M (list TokenDoc.t) :=
  let functionName := "listTokens" in
  let* u :=
    lift (obind (assert (truthy user) (functionName +:+ ": user is not defined"))
            (fun _ =>
               match user with
               | JsString u => Resolved u
               | _ => Rejected (AssertionError
                                  (functionName +:+ ": user must be a string"))
               end)) in
  let* _ := perform (ToArray constants.COLLECTION_TOKENS (ByUser u)) in
  fun w =>
    (Resolved (merge_sort status_desc
                 (filter (fun d => TokenDoc.user d = Some u) (tokens w))), w).

(** ** validateUser *)

(** [Array.prototype.indexOf] with strict equality: the first index, or -1. *)
Fixpoint indexOf (xs : list string) (val : string) : Z :=
  match xs with
  | [] => -1
  | x :: xs' =>
      if String.eqb x val then 0
      else let i := indexOf xs' val in if i <? 0 then -1 else i + 1
  end.

(** The last step of validateUser, on the groups field of the user's
    document ([None] when the field is missing). *)
Definition memberOfAll (groups : list string) (userGroups : option (list string))
    : bool :=
  match userGroups with
  | None => false
  | Some ug => forallb (fun val => 0 <=? indexOf ug val) groups
  end.

Definition validateUser (groups user : JsValue) : M bool :=
  let fName := "validateUser" in
  let* args :=
    lift (obind (_validate fName "groups" groups None)
            (fun _ =>
               match groups with
               | JsArray gs =>
                   obind (_validateNoEmptyString fName "user" user (Some "string"))
                     (fun u => Resolved (gs, u))
               | _ => Rejected (AssertionError
                                  (fName +:+ ": groups must be an Array"))
               end)) in
  let '(gs, u) := args in
  let p_user_cursor :=
    mkCursor constants.COLLECTION_USERS (ByUser u)
      (fun w => filter (fun d => UserDoc.user d = u) (users w)) in
  let* _ := cursorHasExactlyOneDoc p_user_cursor in
  let* p_user_document := getDocument p_user_cursor in
  let* doc := deref p_user_document in
  ret (memberOfAll gs (UserDoc.groups doc)).

(** ** validateToken *)

Definition field (v : option string) : JsValue :=
  match v with
  | Some s => JsString s
  | None => JsUndefined
  end.

Definition validateToken (now : Z) (groups token : JsValue) : M bool :=
  let fName := "validateToken" in
  let* t :=
    lift (obind (_validate fName "groups" groups None)
            (fun _ =>
               obind (assert (instanceof_Array groups)
                        (fName +:+ ": groups must be an Array"))
                 (fun _ =>
                    _validateNoEmptyString fName "token" token (Some "string")))) in
  let* p_cursor := findMatchingTokens t in
  let* _ := cursorHasExactlyOneDoc p_cursor in
  let* p_document := getDocument p_cursor in
  let* doc := deref p_document in
  if String.eqb (TokenDoc.status doc) constants.TOKEN_STATUS_REVOKED
  then ret false
  else if match TokenDoc.expiryTime doc with
          | Some e => moment.isAfter now e
          | None => false
          end
  then ret false
  else validateUser groups (field (TokenDoc.user doc)).

(** ** Sequences of calls

    The calls run one after the other on the same database.  Where a call
    ended the process on an uncaught exception, the calls after it are
    those of the restarted server. *)

Inductive Operation :=
  | Create (zone : moment.Zone) (now : Z) (random : Outcome (list byte))
      (user justification : JsValue)
  | Revoke (now : Z) (user token justification : JsValue)
  | List (user : JsValue)
  | Validate (now : Z) (groups token : JsValue).

Definition exec (op : Operation) (w : World) : World :=
  match op with
  | Create zone now random user justification =>
      snd (createToken zone now random user justification w)
  | Revoke now user token justification =>
      snd (revokeToken now user token justification w)
  | List user => snd (listTokens user w)
  | Validate now groups token => snd (validateToken now groups token w)
  end.

Definition execAll (ops : list Operation) (w : World) : World :=
  fold_left (fun w' op => exec op w') ops w.

(** ** The HTTP routes (app.js)

    Each route calls one function of the model for a fixed user and turns
    the promise's outcome into a response: the resolved value as JSON with
    status 200, or, through the error-handling middleware, the same 500
    for every rejection.  (The middleware also stops the server on a
    MongoError of a dead connection; such errors are outside the model.) *)
Module app.

Definition creation_msg : string := "Created by owner via web interface".
Definition revocation_msg : string := "Revoked by owner via web interface".

(** [let user = 'an8@sanger.ac.uk'] in every route. *)
Definition user : string := "an8@sanger.ac.uk".

Inductive Json :=
  | JsonDoc (doc : option TokenDoc.t)
  | JsonDocs (docs : list TokenDoc.t)
  | JsonError (status : Z) (err : string).

Record Response := mkResponse {
  statusCode : Z;
  body : Json
}.

Definition errorHandler (err : Exn) : Response :=
  let statusCode := 500 in
  mkResponse statusCode (JsonError statusCode "Internal server error").

(** No response is sent when the process ends on an uncaught exception. *)
Definition postCreateToken (zone : moment.Zone) (now : Z)
    (random : Outcome (list byte)) (w : World) : option Response * World :=
  match createToken zone now random (JsString user) (JsString creation_msg) w with
  | (Resolved response, w') => (Some (mkResponse 200 (JsonDoc (Some response))), w')
  | (Rejected (Uncaught _), w') => (None, w')
  | (Rejected err, w') => (Some (errorHandler err), w')
  end.

(** [reqBody] is the parsed JSON body; a missing key reads as undefined. *)
Definition postRevokeToken (now : Z) (reqBody : gmap string JsValue)
    (w : World) : Response * World :=
  let token := default JsUndefined (reqBody !! "token") in
  match revokeToken now (JsString user) token (JsString revocation_msg) w with
  | (Resolved row, w') => (mkResponse 200 (JsonDoc row), w')
  | (Rejected err, w') => (errorHandler err, w')
  end.

Definition getListTokens (w : World) : Response * World :=
  match listTokens (JsString user) w with
  | (Resolved docs, w') => (mkResponse 200 (JsonDocs docs), w')
  | (Rejected err, w') => (errorHandler err, w')
  end.

End app.

(** ** Vocabulary of the statements *)

(** A call refused for its arguments: an assertion failed and the world,
    its I/O log included, is as before. *)
Definition refused {A} (r : Outcome A * World) (w : World) : Prop :=
  exists msg, r = (Rejected (AssertionError msg), w).

(** The world after further I/O events that change no document. *)
Definition asked (w : World) (evs : list IoEvent) : World :=
  mkWorld (tokens w) (users w) (io w ++ evs).

Definition tokensMatching (token : string) (w : World) : list TokenDoc.t :=
  filter (fun d => TokenDoc.token d = token) (tokens w).

Definition tokensOf (user : string) (w : World) : list TokenDoc.t :=
  filter (fun d => TokenDoc.user d = Some user) (tokens w).

Definition usersMatching (user : string) (w : World) : list UserDoc.t :=
  filter (fun d => UserDoc.user d = user) (users w).

(** What one call may do to a stored token document: the token stays, and
    the status stays or becomes REVOKED. *)
Definition transition (d d' : TokenDoc.t) : Prop :=
  TokenDoc.token d' = TokenDoc.token d /\
  (TokenDoc.status d' = TokenDoc.status d
   \/ TokenDoc.status d' = constants.TOKEN_STATUS_REVOKED).

(** Every document of [w] is still there in [w'], at its place, after a
    [transition]. *)
Definition evolves (w w' : World) : Prop :=
  forall i d, tokens w !! i = Some d ->
    exists d', tokens w' !! i = Some d' /\ transition d d'.

(** An index into the base64 alphabet. *)
Definition sextet (i : Z) : Prop := 0 <= i < 64.

(** What the two replaces make of one character. *)
Definition url_char (c : ascii) : ascii :=
  let c' := if Ascii.eqb c "/" then "_"%char else c in
  if Ascii.eqb c' "+" then "-"%char else c'.

(** The UTF-8 of a code point of three bytes, and of U+00A0. *)
Definition utf8_3 (n0 n1 n2 : N) : string :=
  String (ascii_of_N n0) (String (ascii_of_N n1) (String (ascii_of_N n2) "")).

Definition no_break_space : string := String "194" (String "160" "").

(** A value the string validation lets through: a string with a character
    that is not white space. *)
Definition validString (v : JsValue) : bool :=
  match v with
  | JsString s => negb (all_white_space s)
  | _ => false
  end.

(** A string the checks of listTokens let through. *)
Definition nonEmptyString (v : JsValue) : bool :=
  match v with
  | JsString s => negb (String.eqb s "")
  | _ => false
  end.

(** Events that only read the store. *)
Definition isRead (ev : IoEvent) : bool :=
  match ev with
  | Count _ _ | Next _ _ | ToArray _ _ => true
  | RandomBytes _ | InsertOne _ _ | FindOneAndUpdate _ _ => false
  end.

(** What a stored token document keeps for good: its token, user and
    expiry time, and the history it has so far. *)
Definition kept (d d' : TokenDoc.t) : Prop :=
  TokenDoc.token d' = TokenDoc.token d /\
  TokenDoc.user d' = TokenDoc.user d /\
  TokenDoc.expiryTime d' = TokenDoc.expiryTime d /\
  TokenDoc.hist d `prefix_of` TokenDoc.hist d'.

(** [w'] extends [w]: same users collection, a longer I/O log, no token
    document removed and each one [kept]. *)
Definition extends (w w' : World) : Prop :=
  users w' = users w /\
  io w `prefix_of` io w' /\
  (length (tokens w) <= length (tokens w'))%nat /\
  (forall i d, tokens w !! i = Some d ->
     exists d', tokens w' !! i = Some d' /\ kept d d').

(** [w'] is [w] after some reads of the store and nothing else. *)
Definition readsOnly (w w' : World) : Prop :=
  exists evs, w' = asked w evs /\ forallb isRead evs = true.

(** A computation whose final world is always related to its initial one. *)
Definition preserves {A} (P : World -> World -> Prop) (m : M A) : Prop :=
  forall w, P w (snd (m w)).

(** * Properties *)

(** ** Validation *)

Lemma trimStart_from_white (s : string) (k : nat) :
  all_white_space_from k s = true -> trimStart_from k s = "".
Proof.
  revert k. induction s as [|c s IH]; intros k; [reflexivity|].
  cbn [all_white_space_from trimStart_from]. destruct k as [|k]; [|apply IH].
  destruct (white_space_length (String c s)); [discriminate | apply IH].
Qed.

Lemma trimStart_white (s : string) :
  all_white_space s = true -> trimStart s = "".
Proof. apply trimStart_from_white. Qed.

Lemma trim_blank (s : string) : all_white_space s = true -> trim s = "".
Proof. intros H. unfold trim. rewrite trimStart_white by assumption. reflexivity. Qed.

Lemma trim_nonempty (s : string) : trim s <> "" -> s <> "".
Proof. intros H ->. apply H. reflexivity. Qed.

Lemma eqb_empty_false (s : string) : s <> "" -> String.eqb s "" = false.
Proof. intros H. apply String.eqb_neq. exact H. Qed.

(** A string that survives trimming passes the validation. *)
Lemma validateNoEmptyString_ok (scope name s : string) :
  trim s <> "" ->
  _validateNoEmptyString scope name (JsString s) (Some "string") = Resolved s.
Proof.
  intros H. unfold _validateNoEmptyString, _validate, assert, obind. simpl.
  rewrite (eqb_empty_false s) by (apply trim_nonempty; exact H). simpl.
  rewrite (eqb_empty_false (trim s)) by exact H. reflexivity.
Qed.

(** A blank string is refused, with the "empty string" message. *)
Lemma validateNoEmptyString_blank (scope name s : string) :
  blank s ->
  _validateNoEmptyString scope name (JsString s) (Some "string")
  = Rejected (AssertionError (scope +:+ ": " +:+ name +:+ " cannot be empty string")).
Proof.
  intros [Hne Hws]. unfold _validateNoEmptyString, _validate, assert, obind. simpl.
  rewrite (eqb_empty_false s) by exact Hne. simpl.
  rewrite (trim_blank s) by exact Hws. reflexivity.
Qed.

(** With the type "string" asked for, the validation either hands back the
    string or fails an assertion: the call of trim is never reached on
    another value. *)
Lemma validateNoEmptyString_cases (scope name : string) (v : JsValue) :
  (exists s, v = JsString s /\
             _validateNoEmptyString scope name v (Some "string") = Resolved s)
  \/ (exists msg, _validateNoEmptyString scope name v (Some "string")
                  = Rejected (AssertionError msg)).
Proof.
  destruct v as [| |b|n|s|xs];
    unfold _validateNoEmptyString, _validate, assert, obind; simpl.
  - right. eauto.
  - right. eauto.
  - right. destruct b; simpl; eauto.
  - right. destruct (n =? 0); simpl; eauto.
  - destruct (String.eqb s ""); simpl; [right; eauto|].
    destruct (String.eqb (trim s) ""); simpl; [right; eauto|].
    left. eauto.
  - right. eauto.
Qed.

(** The groups argument of validateToken and validateUser. *)
Lemma validate_groups_cases (scope : string) (v : JsValue) :
  (exists gs, v = JsArray gs /\ _validate scope "groups" v None = Resolved tt)
  \/ (instanceof_Array v = false /\
      ((exists msg, _validate scope "groups" v None = Rejected (AssertionError msg))
       \/ _validate scope "groups" v None = Resolved tt)).
Proof.
  destruct v as [| |b|n|s|xs]; unfold _validate, assert, obind; simpl.
  - right. split; [reflexivity|]. left. eauto.
  - right. split; [reflexivity|]. left. eauto.
  - right. split; [reflexivity|]. destruct b; simpl; eauto.
  - right. split; [reflexivity|]. destruct (n =? 0); simpl; eauto.
  - right. split; [reflexivity|]. destruct (String.eqb s ""); simpl; eauto.
  - left. eauto.
Qed.

Ltac case_validation scope name v :=
  let s := fresh "s" in
  let msg := fresh "msg" in
  let Hv := fresh "Hv" in
  let E := fresh "E" in
  destruct (validateNoEmptyString_cases scope name v)
    as [(s & Hv & E) | (msg & E)];
  rewrite E; simpl; [subst v | eexists; reflexivity].

(** C10: a blank string (not empty, white space only) is refused by
    createToken, revokeToken and validateToken in every string position,
    by a failed assertion and with the world and its I/O log untouched;
    listTokens takes such a user and queries the tokens collection with
    it. *)
Theorem C10_blank_arguments (s : string) (Hs : blank s) :
  (forall zone now random justification w,
      refused (createToken zone now random (JsString s) justification w) w) /\
  (forall zone now random user w,
      refused (createToken zone now random user (JsString s) w) w) /\
  (forall now token justification w,
      refused (revokeToken now (JsString s) token justification w) w) /\
  (forall now user justification w,
      refused (revokeToken now user (JsString s) justification w) w) /\
  (forall now user token w,
      refused (revokeToken now user token (JsString s) w) w) /\
  (forall now groups w,
      refused (validateToken now groups (JsString s) w) w) /\
  (forall w,
      listTokens (JsString s) w
      = (Resolved (merge_sort status_desc (tokensOf s w)),
         asked w [ToArray constants.COLLECTION_TOKENS (ByUser s)])).
Proof.
  repeat split; intros.
  - unfold refused, createToken, bind, lift.
    rewrite validateNoEmptyString_blank by exact Hs. simpl. eauto.
  - unfold refused, createToken, bind, lift.
    case_validation "createToken" "user" user.
    rewrite validateNoEmptyString_blank by exact Hs. simpl. eauto.
  - unfold refused, revokeToken, bind, lift.
    rewrite validateNoEmptyString_blank by exact Hs. simpl. eauto.
  - unfold refused, revokeToken, bind, lift.
    case_validation "revokeToken" "user" user.
    rewrite validateNoEmptyString_blank by exact Hs. simpl. eauto.
  - unfold refused, revokeToken, bind, lift.
    case_validation "revokeToken" "user" user.
    case_validation "revokeToken" "token" token.
    rewrite validateNoEmptyString_blank by exact Hs. simpl. eauto.
  - unfold refused, validateToken, bind, lift.
    destruct (validate_groups_cases "validateToken" groups)
      as [(gs & -> & E) | (Hi & [(msg & E) | E])]; rewrite E; simpl.
    + rewrite validateNoEmptyString_blank by exact Hs. simpl. eauto.
    + eauto.
    + rewrite Hi. simpl. eauto.
  - destruct Hs as [Hne _].
    unfold listTokens, bind, lift, perform, assert, obind, asked, tokensOf. simpl.
    rewrite (eqb_empty_false s) by exact Hne. reflexivity.
Qed.

Lemma C10_blank_arguments_witness :
  blank (" " +:+ no_break_space) /\
  refused (createToken moment.utc 0 (Rejected (SystemError "entropy"))
             (JsString (" " +:+ no_break_space))
             (JsString "why") (mkWorld [] [] [])) (mkWorld [] [] []).
Proof.
  assert (H : blank (" " +:+ no_break_space))
    by (split; [discriminate | reflexivity]).
  split; [exact H|].
  apply (proj1 (C10_blank_arguments (" " +:+ no_break_space) H)).
Defined.

(** The white space beyond ASCII, and three code points that are none:
    U+0085, U+180E and U+200B. *)
Example white_space_code_points :
  all_white_space
    (no_break_space +:+ utf8_3 225 154 128 +:+ utf8_3 226 128 128
     +:+ utf8_3 226 128 138 +:+ utf8_3 226 128 168 +:+ utf8_3 226 128 169
     +:+ utf8_3 226 128 175 +:+ utf8_3 226 129 159 +:+ utf8_3 227 128 128
     +:+ utf8_3 239 187 191) = true /\
  all_white_space (String "194" (String "133" "")) = false /\
  all_white_space (utf8_3 225 160 142) = false /\
  all_white_space (utf8_3 226 128 139) = false.
Proof. repeat split. Qed.

Example trim_no_break_space :
  trim (no_break_space +:+ "a" +:+ no_break_space +:+ "b"
        +:+ utf8_3 227 128 128 +:+ " ")
  = "a" +:+ no_break_space +:+ "b".
Proof. reflexivity. Qed.

Example createToken_no_break_space :
  fst (createToken moment.utc 0 (Resolved (repeat x00 24))
         (JsString no_break_space) (JsString "why") (mkWorld [] [] []))
  = Rejected (AssertionError "createToken: user cannot be empty string").
Proof. reflexivity. Qed.

(** ** Group membership *)

Lemma indexOf_lower (ug : list string) (v : string) : -1 <= indexOf ug v.
Proof.
  induction ug as [|x ug IH]; simpl; [lia|].
  destruct (String.eqb x v); [lia|].
  destruct (indexOf ug v <? 0) eqn:E; lia.
Qed.

Lemma indexOf_found (ug : list string) (v : string) :
  (0 <=? indexOf ug v) = true <-> v ∈ ug.
Proof.
  induction ug as [|x ug IH]; simpl.
  - split; [discriminate | intros H; inversion H].
  - destruct (String.eqb_spec x v) as [->|Hne].
    + split; [intros _; left | reflexivity].
    + rewrite elem_of_cons, <- IH.
      destruct (indexOf ug v <? 0) eqn:E.
      * apply Z.ltb_lt in E. split; [discriminate|].
        intros [Heq | H]; [congruence|]. apply Z.leb_le in H. lia.
      * apply Z.ltb_ge in E. split.
        -- intros _. right. apply Z.leb_le. exact E.
        -- intros _. apply Z.leb_le. lia.
Qed.

Lemma memberOfAll_spec (gs ug : list string) :
  memberOfAll gs (Some ug) = true <-> (forall g, g ∈ gs -> g ∈ ug).
Proof.
  unfold memberOfAll. rewrite forallb_forall. split.
  - intros H g Hg. apply indexOf_found, H, list_elem_of_In, Hg.
  - intros H g Hg. apply indexOf_found, H, list_elem_of_In, Hg.
Qed.

(** With one document for the user, validateUser counts and reads the
    cursor and answers from that document's groups. *)
Lemma validateUser_one (gs : list string) (u : string) (w : World)
    (doc : UserDoc.t) :
  trim u <> "" ->
  usersMatching u w = [doc] ->
  validateUser (JsArray gs) (JsString u) w
  = (Resolved (memberOfAll gs (UserDoc.groups doc)),
     asked w [Count constants.COLLECTION_USERS (ByUser u);
              Next constants.COLLECTION_USERS (ByUser u)]).
Proof.
  intros Hu Hdoc. unfold usersMatching in Hdoc.
  unfold validateUser, bind, lift.
  rewrite validateNoEmptyString_ok by exact Hu.
  unfold cursorHasExactlyOneDoc, getDocument, count, next, bind, perform, deref,
    ret, asked. simpl.
  repeat (rewrite Hdoc; simpl). rewrite <- app_assoc. reflexivity.
Qed.

(** C2, as the code has it: a user document without a groups field gives
    false whatever is required; a document with a groups array, empty or
    not, gives true exactly when every required group occurs in it (for an
    empty array: exactly when nothing is required). *)
Theorem C2_validateUser_membership (gs : list string) (u : string) (w : World)
    (doc : UserDoc.t) :
  trim u <> "" ->
  usersMatching u w = [doc] ->
  exists b,
    fst (validateUser (JsArray gs) (JsString u) w) = Resolved b /\
    (UserDoc.groups doc = None -> b = false) /\
    (forall ug, UserDoc.groups doc = Some ug ->
       (b = true <-> forall g, g ∈ gs -> g ∈ ug)) /\
    (UserDoc.groups doc = Some [] -> (b = true <-> gs = [])).
Proof.
  intros Hu Hdoc. exists (memberOfAll gs (UserDoc.groups doc)).
  rewrite (validateUser_one gs u w doc Hu Hdoc). simpl.
  split; [reflexivity|]. split; [|split].
  - intros ->. reflexivity.
  - intros ug ->. apply memberOfAll_spec.
  - intros ->. rewrite memberOfAll_spec. split.
    + intros H. destruct gs as [|g gs]; [reflexivity|].
      exfalso. specialize (H g (list_elem_of_here g gs)). inversion H.
    + intros -> g Hg. inversion Hg.
Qed.

Lemma C2_validateUser_membership_witness :
  exists b,
    fst (validateUser (JsArray ["1"; "5"]) (JsString "user@example.com")
           (mkWorld [] [UserDoc.mk "user@example.com" (Some ["1"; "2"; "5"])] []))
    = Resolved b.
Proof.
  destruct (C2_validateUser_membership ["1"; "5"] "user@example.com"
              (mkWorld [] [UserDoc.mk "user@example.com" (Some ["1"; "2"; "5"])] [])
              (UserDoc.mk "user@example.com" (Some ["1"; "2"; "5"])))
    as (b & Hb & _).
  - discriminate.
  - reflexivity.
  - exists b. exact Hb.
Defined.

(** C2 as stated fails: with an empty groups array and nothing required,
    validateUser answers true, not false. *)
Lemma C2_counterexample :
  let doc := UserDoc.mk "emptygroups@example.com" (Some []) in
  let w := mkWorld [] [doc] [] in
  UserDoc.groups doc = Some [] /\
  usersMatching "emptygroups@example.com" w = [doc] /\
  fst (validateUser (JsArray []) (JsString "emptygroups@example.com") w)
  = Resolved true /\
  fst (validateUser (JsArray []) (JsString "emptygroups@example.com") w)
  <> Resolved false.
Proof. repeat split; try reflexivity. discriminate. Qed.

(** ** validateToken *)

Ltac unfold_lookup :=
  unfold findMatchingTokens, cursorHasExactlyOneDoc, getDocument, count, next,
    deref, bind, perform, ret, reject, asked, tokensMatching in *;
  simpl in *.



(** ** revokeToken *)

Section Revoke.

Variables (now : Z) (u t j : string) (w : World).
Hypothesis (Hu : trim u <> "") (Ht : trim t <> "") (Hj : trim j <> "").

Let call := revokeToken now (JsString u) (JsString t) (JsString j) w.
Let update := mkUpdate constants.TOKEN_STATUS_REVOKED (revokeEntry now j).
Let counted := asked w [Count constants.COLLECTION_TOKENS (ByToken t)].
Let lookedUp := asked w [Count constants.COLLECTION_TOKENS (ByToken t);
                         Next constants.COLLECTION_TOKENS (ByToken t)].

Lemma filter_singleton_split {A} (P : A -> Prop) `{!forall x, Decision (P x)}
    (l : list A) (d : A) :
  filter P l = [d] ->
  exists l1 l2, l = l1 ++ d :: l2 /\ filter P l1 = [] /\ filter P l2 = [] /\ P d.
Proof.
  induction l as [|a l IH]; [discriminate|].
  rewrite filter_cons. destruct (decide (P a)) as [Ha|Ha].
  - intros [= -> Hl]. exists [], l. auto.
  - intros (l1 & l2 & -> & H1 & H2 & Hd)%IH.
    exists (a :: l1), l2. rewrite filter_cons_False by exact Ha. auto.
Qed.

Lemma findOneAndUpdate_split (tok : string) (upd : Update)
    (l1 l2 : list TokenDoc.t) (d : TokenDoc.t) :
  filter (fun x => TokenDoc.token x = tok) l1 = [] ->
  TokenDoc.token d = tok ->
  findOneAndUpdate tok upd (l1 ++ d :: l2)
  = (Some (applyUpdate upd d), l1 ++ applyUpdate upd d :: l2).
Proof.
  intros H1 Hd. induction l1 as [|a l1 IH]; simpl.
  - rewrite decide_True by exact Hd. reflexivity.
  - rewrite filter_cons in H1. destruct (decide (TokenDoc.token a = tok)) as [Ha|Ha];
      [discriminate|].
    rewrite IH by exact H1. reflexivity.
Qed.

Lemma revokeToken_validated :
  call = (let* p_cursor := findMatchingTokens t in
          let* _ := cursorHasExactlyOneDoc p_cursor in
          let* p_document := getDocument p_cursor in
          let* doc := deref p_document in
          let* _ :=
            if decide (Some u = TokenDoc.user doc) then ret tt
            else reject (Error USER_NOT_TOKEN_OWNER) in
          _updateToken doc update) w.
Proof.
  subst call update. unfold revokeToken, bind at 1, lift.
  rewrite !validateNoEmptyString_ok by assumption. reflexivity.
Qed.

Lemma revokeToken_not_one :
  length (tokensMatching t w) <> 1%nat ->
  call = (Rejected (DbError UNEXPECTED_NUM_DOCS), counted).
Proof.
  intros Hlen. rewrite revokeToken_validated. unfold_lookup.
  apply Nat.eqb_neq in Hlen. rewrite Hlen. reflexivity.
Qed.

Lemma revokeToken_not_owner (doc : TokenDoc.t) :
  tokensMatching t w = [doc] ->
  TokenDoc.user doc <> Some u ->
  call = (Rejected (Error USER_NOT_TOKEN_OWNER), lookedUp).
Proof.
  intros Hdoc Hne. rewrite revokeToken_validated. unfold_lookup.
  repeat (rewrite Hdoc; simpl).
  rewrite decide_False by congruence. simpl.
  subst lookedUp. unfold asked. rewrite <- app_assoc. reflexivity.
Qed.

Lemma revokeToken_owner (doc : TokenDoc.t) :
  tokensMatching t w = [doc] ->
  TokenDoc.user doc = Some u ->
  exists l1 l2,
    tokens w = l1 ++ doc :: l2 /\
    filter (fun x => TokenDoc.token x = t) l1 = [] /\
    filter (fun x => TokenDoc.token x = t) l2 = [] /\
    call = (Resolved (Some (applyUpdate update doc)),
            mkWorld (l1 ++ applyUpdate update doc :: l2) (users w)
              (io w ++ [Count constants.COLLECTION_TOKENS (ByToken t);
                        Next constants.COLLECTION_TOKENS (ByToken t);
                        FindOneAndUpdate constants.COLLECTION_TOKENS (ByToken t)])).
Proof.
  intros Hdoc Hown.
  destruct (filter_singleton_split _ _ _ Hdoc) as (l1 & l2 & Hw & H1 & H2 & Hd).
  exists l1, l2. repeat (split; [assumption|]).
  rewrite revokeToken_validated. unfold_lookup.
  repeat (rewrite Hdoc; simpl).
  rewrite decide_True by congruence. simpl.
  unfold _updateToken, bind, perform. simpl.
  rewrite Hd, Hw, findOneAndUpdate_split by assumption.
  rewrite <- !app_assoc. reflexivity.
Qed.

End Revoke.

(** C3: revokeToken with valid arguments.  Unless exactly one document has
    the token the call is rejected with DbError(UNEXPECTED_NUM_DOCS); when
    the one document belongs to another user it is rejected with
    Error(USER_NOT_TOKEN_OWNER); in both cases the collections are as
    before.  Otherwise the document gets status REVOKED and one more
    history entry, everything else in the store stays, and the updated
    document is returned. *)
Theorem C3_revokeToken_outcomes (now : Z) (u t j : string) (w : World) :
  trim u <> "" -> trim t <> "" -> trim j <> "" ->
  let call := revokeToken now (JsString u) (JsString t) (JsString j) w in
  (length (tokensMatching t w) <> 1%nat ->
     call = (Rejected (DbError UNEXPECTED_NUM_DOCS),
             asked w [Count constants.COLLECTION_TOKENS (ByToken t)])) /\
  (forall doc, tokensMatching t w = [doc] -> TokenDoc.user doc <> Some u ->
     call = (Rejected (Error USER_NOT_TOKEN_OWNER),
             asked w [Count constants.COLLECTION_TOKENS (ByToken t);
                      Next constants.COLLECTION_TOKENS (ByToken t)])) /\
  (forall doc, tokensMatching t w = [doc] -> TokenDoc.user doc = Some u ->
     exists doc' l1 l2,
       fst call = Resolved (Some doc') /\
       TokenDoc.status doc' = constants.TOKEN_STATUS_REVOKED /\
       TokenDoc.hist doc' = TokenDoc.hist doc ++ [revokeEntry now j] /\
       TokenDoc.token doc' = TokenDoc.token doc /\
       TokenDoc.user doc' = TokenDoc.user doc /\
       TokenDoc.expiryTime doc' = TokenDoc.expiryTime doc /\
       tokens w = l1 ++ doc :: l2 /\
       tokens (snd call) = l1 ++ doc' :: l2 /\
       users (snd call) = users w /\
       tokensMatching t (snd call) = [doc']).
Proof.
  intros Hu Ht Hj call. subst call. split; [|split].
  - apply revokeToken_not_one; assumption.
  - intros doc. apply revokeToken_not_owner; assumption.
  - intros doc Hdoc Hown.
    destruct (revokeToken_owner now u t j w Hu Ht Hj doc Hdoc Hown)
      as (l1 & l2 & Hw & H1 & H2 & ->).
    eexists _, l1, l2. simpl. repeat (split; [reflexivity || assumption|]).
    unfold tokensMatching. simpl.
    rewrite filter_app, filter_cons, H1, H2. simpl.
    apply (f_equal (filter (fun x => TokenDoc.token x = t))) in Hw.
    rewrite decide_True; [reflexivity|].
    assert (Hin : doc ∈ tokensMatching t w) by (rewrite Hdoc; left).
    unfold tokensMatching in Hin. apply list_elem_of_filter in Hin. tauto.
Qed.

Lemma C3_revokeToken_outcomes_witness :
  revokeToken 1000 (JsString "bad@example.com") (JsString "aaaa")
    (JsString "Test revocation")
    (mkWorld [TokenDoc.mk "aaaa" "valid" [] (Some "user@example.com") None] [] [])
  = (Rejected (Error USER_NOT_TOKEN_OWNER),
     asked (mkWorld [TokenDoc.mk "aaaa" "valid" [] (Some "user@example.com") None]
              [] [])
       [Count constants.COLLECTION_TOKENS (ByToken "aaaa");
        Next constants.COLLECTION_TOKENS (ByToken "aaaa")]).
Proof.
  refine (proj1 (proj2 (C3_revokeToken_outcomes 1000 "bad@example.com" "aaaa"
                          "Test revocation" _ _ _ _)) _ _ _).
  - discriminate.
  - discriminate.
  - discriminate.
  - reflexivity.
  - discriminate.
Defined.

(** C4, on the code: a token whose one document is already REVOKED is
    revoked again by its owner like any other.  The call resolves, status
    is REVOKED afterwards as before, and the history is one entry longer:
    the new last entry holds the time of this call and its justification,
    and, like every entry the code writes, no operation. *)
Theorem C4_revoke_revoked (now : Z) (u t j : string) (w : World)
    (doc : TokenDoc.t) :
  trim u <> "" -> trim t <> "" -> trim j <> "" ->
  tokensMatching t w = [doc] ->
  TokenDoc.user doc = Some u ->
  TokenDoc.status doc = constants.TOKEN_STATUS_REVOKED ->
  let call := revokeToken now (JsString u) (JsString t) (JsString j) w in
  exists doc' e,
    fst call = Resolved (Some doc') /\
    tokensMatching t (snd call) = [doc'] /\
    TokenDoc.status doc' = constants.TOKEN_STATUS_REVOKED /\
    TokenDoc.status doc' = TokenDoc.status doc /\
    TokenDoc.hist doc' = TokenDoc.hist doc ++ [e] /\
    length (TokenDoc.hist doc') = S (length (TokenDoc.hist doc)) /\
    e !! "time" = Some (Timestamp (moment.format now)) /\
    e !! "reason" = Some (Text j) /\
    e !! "operation" = None.
Proof.
  intros Hu Ht Hj Hdoc Hown Hst call. subst call.
  destruct (revokeToken_owner now u t j w Hu Ht Hj doc Hdoc Hown)
    as (l1 & l2 & Hw & H1 & H2 & ->).
  eexists _, (revokeEntry now j). simpl. split; [reflexivity|].
  split; [|split; [|split; [|split; [|split]]]].
  - unfold tokensMatching. simpl.
    rewrite filter_app, filter_cons, H1, H2. simpl.
    rewrite decide_True; [reflexivity|].
    assert (Hin : doc ∈ tokensMatching t w) by (rewrite Hdoc; left).
    unfold tokensMatching in Hin. apply list_elem_of_filter in Hin. tauto.
  - reflexivity.
  - rewrite Hst. reflexivity.
  - reflexivity.
  - simpl. rewrite length_app. simpl. lia.
  - unfold revokeEntry. repeat split; simplify_map_eq; reflexivity.
Qed.

Lemma C4_revoke_revoked_witness :
  exists doc' e,
    fst (revokeToken 2000 (JsString "user@example.com") (JsString "AAAA")
           (JsString "again")
           (mkWorld [TokenDoc.mk "AAAA" "revoked"
                       [revokeEntry 1000 "first"] (Some "user@example.com") None]
              [] []))
    = Resolved (Some doc') /\
    TokenDoc.hist doc' = [revokeEntry 1000 "first"] ++ [e] /\
    e !! "reason" = Some (Text "again") /\
    e !! "operation" = None.
Proof.
  destruct (C4_revoke_revoked 2000 "user@example.com" "AAAA" "again"
              (mkWorld [TokenDoc.mk "AAAA" "revoked"
                          [revokeEntry 1000 "first"] (Some "user@example.com") None]
                 [] [])
              (TokenDoc.mk "AAAA" "revoked"
                 [revokeEntry 1000 "first"] (Some "user@example.com") None))
    as (doc' & e & Hr & _ & _ & _ & Hh & _ & _ & Hreason & Hop).
  - discriminate.
  - discriminate.
  - discriminate.
  - reflexivity.
  - reflexivity.
  - reflexivity.
  - exists doc', e. repeat split; assumption.
Defined.

(** ** Token generation *)

Lemma byte_val_range (b : byte) : 0 <= byte_val b < 256.
Proof.
  unfold byte_val. pose proof (Byte.to_N_bounded b) as H. lia.
Qed.

Lemma lor_bound (a b n : Z) :
  0 <= a < 2 ^ n -> 0 <= b < 2 ^ n -> 0 <= Z.lor a b < 2 ^ n.
Proof.
  intros Ha Hb.
  assert (Hn : 0 <= n).
  { destruct (Z.neg_nonneg_cases n) as [Hneg|]; [|assumption].
    rewrite Z.pow_neg_r in Ha by assumption. lia. }
  assert (Hnn : 0 <= Z.lor a b) by (apply Z.lor_nonneg; lia).
  split; [exact Hnn|].
  destruct (Z.eq_dec (Z.lor a b) 0) as [E|E].
  - rewrite E. apply Z.pow_pos_nonneg; lia.
  - apply Z.log2_lt_pow2; [lia|].
    rewrite Z.log2_lor by lia.
    assert (Hlog : forall x, 0 <= x < 2 ^ n -> 0 < n -> Z.log2 x < n).
    { intros x Hx Hpos. destruct (Z.eq_dec x 0) as [->|Hx0]; [simpl; lia|].
      apply Z.log2_lt_pow2; lia. }
    assert (0 < n).
    { destruct (Z.eq_dec n 0) as [->|]; [|lia].
      simpl in Ha, Hb. assert (a = 0) by lia. assert (b = 0) by lia.
      subst. exfalso. apply E. reflexivity. }
    apply Z.max_lub_lt; auto.
Qed.

Lemma sextet_high (x : Z) : 0 <= x < 256 -> sextet (Z.shiftr x 2).
Proof.
  intros H. unfold sextet. rewrite Z.shiftr_div_pow2 by lia.
  change (2 ^ 2) with 4. split.
  - apply Z.div_pos; lia.
  - apply Z.div_lt_upper_bound; lia.
Qed.

Lemma sextet_low (x : Z) : 0 <= x -> sextet (Z.land x 63).
Proof.
  intros H. unfold sextet. change 63 with (Z.ones 6).
  rewrite Z.land_ones by lia. apply Z.mod_pos_bound. reflexivity.
Qed.

Lemma sextet_mid1 (x y : Z) :
  0 <= x -> 0 <= y < 256 ->
  sextet (Z.lor (Z.shiftl (Z.land x 3) 4) (Z.shiftr y 4)).
Proof.
  intros Hx Hy. unfold sextet. change 64 with (2 ^ 6). apply lor_bound.
  - change 3 with (Z.ones 2). rewrite Z.land_ones, Z.shiftl_mul_pow2 by lia.
    pose proof (Z.mod_pos_bound x (2 ^ 2) eq_refl) as Hm.
    change (2 ^ 2) with 4 in *. change (2 ^ 4) with 16. change (2 ^ 6) with 64. lia.
  - rewrite Z.shiftr_div_pow2 by lia. change (2 ^ 4) with 16.
    change (2 ^ 6) with 64. split.
    + apply Z.div_pos; lia.
    + apply Z.div_lt_upper_bound; lia.
Qed.

Lemma sextet_mid2 (x y : Z) :
  0 <= x -> 0 <= y < 256 ->
  sextet (Z.lor (Z.shiftl (Z.land x 15) 2) (Z.shiftr y 6)).
Proof.
  intros Hx Hy. unfold sextet. change 64 with (2 ^ 6). apply lor_bound.
  - change 15 with (Z.ones 4). rewrite Z.land_ones, Z.shiftl_mul_pow2 by lia.
    pose proof (Z.mod_pos_bound x (2 ^ 4) eq_refl) as Hm.
    change (2 ^ 4) with 16 in *. change (2 ^ 2) with 4. change (2 ^ 6) with 64. lia.
  - rewrite Z.shiftr_div_pow2 by lia. change (2 ^ 6) with 64. split.
    + apply Z.div_pos; lia.
    + apply Z.div_lt_upper_bound; lia.
Qed.

Lemma token_of_buffer_chars (s : string) :
  replace_all "+" "-" (replace_all "/" "_" s)
  = (fix go (s : string) : string :=
       match s with
       | EmptyString => EmptyString
       | String a s' => String (url_char a) (go s')
       end) s.
Proof. induction s as [|a s IH]; simpl; [reflexivity|]. rewrite IH. reflexivity. Qed.

Lemma base64_char_url_safe (i : Z) :
  sextet i -> url_safe (url_char (base64_char i)) = true.
Proof.
  intros [H0 H64].
  assert (Hall : forallb (fun n => url_safe (url_char (base64_char (Z.of_nat n))))
                   (seq 0 64) = true) by (vm_compute; reflexivity).
  rewrite forallb_forall in Hall.
  rewrite <- (Z2Nat.id i) by exact H0. apply Hall, in_seq. lia.
Qed.

(** A buffer of 3k bytes encodes to 4k characters, without padding, each
    of which ends up in the URL-safe alphabet. *)
Lemma token_of_buffer_triples (k : nat) (buf : list byte) :
  length buf = (3 * k)%nat ->
  String.length (token_of_buffer buf) = (4 * k)%nat /\
  string_forall url_safe (token_of_buffer buf) = true.
Proof.
  unfold token_of_buffer. rewrite token_of_buffer_chars.
  revert buf. induction k as [|k IH]; intros buf Hlen.
  - destruct buf; [split; reflexivity | discriminate].
  - destruct buf as [|b0 [|b1 [|b2 rest]]]; try (simpl in Hlen; lia).
    assert (Hrest : length rest = (3 * k)%nat) by (simpl in Hlen; lia).
    destruct (IH rest Hrest) as [IHl IHs].
    pose proof (byte_val_range b0). pose proof (byte_val_range b1).
    pose proof (byte_val_range b2).
    cbn [base64 String.length string_forall].
    rewrite IHl, IHs.
    rewrite !base64_char_url_safe
      by (apply sextet_high || apply sextet_low || apply sextet_mid1
          || apply sextet_mid2; lia).
    split; [lia | reflexivity].
Qed.

(** Different bytes, different tokens. *)

Lemma forall_range2 (n m : nat) (f : Z -> Z -> bool) :
  forallb (fun i => forallb (fun k => f (Z.of_nat i) (Z.of_nat k)) (seq 0 m))
    (seq 0 n) = true ->
  forall a b, 0 <= a < Z.of_nat n -> 0 <= b < Z.of_nat m -> f a b = true.
Proof.
  intros H a b Ha Hb. rewrite forallb_forall in H.
  specialize (H (Z.to_nat a)). rewrite forallb_forall in H.
  specialize (H ltac:(apply in_seq; lia) (Z.to_nat b) ltac:(apply in_seq; lia)).
  rewrite !Z2Nat.id in H by lia. exact H.
Qed.

Lemma lor_shiftl4 (a b : Z) :
  0 <= a < 4 -> 0 <= b < 16 -> Z.lor (Z.shiftl a 4) b = 16 * a + b.
Proof.
  intros Ha Hb. apply Z.eqb_eq.
  apply (forall_range2 4 16 (fun a b => Z.lor (Z.shiftl a 4) b =? 16 * a + b));
    [vm_compute; reflexivity | lia | lia].
Qed.

Lemma lor_shiftl2 (a b : Z) :
  0 <= a < 16 -> 0 <= b < 4 -> Z.lor (Z.shiftl a 2) b = 4 * a + b.
Proof.
  intros Ha Hb. apply Z.eqb_eq.
  apply (forall_range2 16 4 (fun a b => Z.lor (Z.shiftl a 2) b =? 4 * a + b));
    [vm_compute; reflexivity | lia | lia].
Qed.

(** The four indices of a group of three bytes, as arithmetic. *)
Lemma sextets_arith (x0 x1 x2 : Z) :
  0 <= x0 < 256 -> 0 <= x1 < 256 -> 0 <= x2 < 256 ->
  Z.shiftr x0 2 = x0 / 4 /\
  Z.lor (Z.shiftl (Z.land x0 3) 4) (Z.shiftr x1 4) = 16 * (x0 mod 4) + x1 / 16 /\
  Z.lor (Z.shiftl (Z.land x1 15) 2) (Z.shiftr x2 6) = 4 * (x1 mod 16) + x2 / 64 /\
  Z.land x2 63 = x2 mod 64.
Proof.
  intros H0 H1 H2.
  assert (E3 : forall x, 0 <= x -> Z.land x 3 = x mod 4)
    by (intros x Hx; change 3 with (Z.ones 2); rewrite Z.land_ones by lia; reflexivity).
  assert (E15 : forall x, 0 <= x -> Z.land x 15 = x mod 16)
    by (intros x Hx; change 15 with (Z.ones 4); rewrite Z.land_ones by lia; reflexivity).
  assert (E63 : forall x, 0 <= x -> Z.land x 63 = x mod 64)
    by (intros x Hx; change 63 with (Z.ones 6); rewrite Z.land_ones by lia; reflexivity).
  rewrite E3, E15, E63 by lia. rewrite !Z.shiftr_div_pow2 by lia.
  change (2 ^ 2) with 4. change (2 ^ 4) with 16. change (2 ^ 6) with 64.
  split; [reflexivity|]. split; [|split; [|reflexivity]].
  - apply lor_shiftl4.
    + apply Z.mod_pos_bound. lia.
    + split; [apply Z.div_pos; lia | apply Z.div_lt_upper_bound; lia].
  - apply lor_shiftl2.
    + apply Z.mod_pos_bound. lia.
    + split; [apply Z.div_pos; lia | apply Z.div_lt_upper_bound; lia].
Qed.

Lemma url_base64_char_inj (i k : Z) :
  sextet i -> sextet k ->
  url_char (base64_char i) = url_char (base64_char k) -> i = k.
Proof.
  intros Hi Hk E.
  pose proof (forall_range2 64 64
                (fun i k =>
                   if Ascii.eqb (url_char (base64_char i)) (url_char (base64_char k))
                   then i =? k else true)
                ltac:(vm_compute; reflexivity) i k Hi Hk) as H.
  simpl in H. rewrite E, Ascii.eqb_refl in H. apply Z.eqb_eq. exact H.
Qed.

Lemma byte_val_inj (a b : byte) : byte_val a = byte_val b -> a = b.
Proof.
  unfold byte_val. intros H. apply N2Z.inj in H.
  pose proof (Byte.of_to_N a) as Ha. pose proof (Byte.of_to_N b) as Hb.
  rewrite H in Ha. congruence.
Qed.

Lemma token_of_buffer_cons3 (b0 b1 b2 : byte) (rest : list byte) :
  token_of_buffer (b0 :: b1 :: b2 :: rest)
  = String (url_char (base64_char (Z.shiftr (byte_val b0) 2)))
      (String (url_char (base64_char
                 (Z.lor (Z.shiftl (Z.land (byte_val b0) 3) 4)
                    (Z.shiftr (byte_val b1) 4))))
         (String (url_char (base64_char
                    (Z.lor (Z.shiftl (Z.land (byte_val b1) 15) 2)
                       (Z.shiftr (byte_val b2) 6))))
            (String (url_char (base64_char (Z.land (byte_val b2) 63)))
               (token_of_buffer rest)))).
Proof. reflexivity. Qed.

Lemma token_of_buffer_inj_triples (k : nat) (buf buf' : list byte) :
  length buf = (3 * k)%nat -> length buf' = (3 * k)%nat ->
  token_of_buffer buf = token_of_buffer buf' -> buf = buf'.
Proof.
  revert buf buf'. induction k as [|k IH]; intros buf buf' Hl Hl' E.
  - destruct buf, buf'; try discriminate. reflexivity.
  - destruct buf as [|b0 [|b1 [|b2 rest]]]; try (simpl in Hl; lia).
    destruct buf' as [|c0 [|c1 [|c2 rest']]]; try (simpl in Hl'; lia).
    rewrite !token_of_buffer_cons3 in E.
    injection E as E0 E1 E2 E3 Er.
    pose proof (byte_val_range b0) as B0. pose proof (byte_val_range b1) as B1.
    pose proof (byte_val_range b2) as B2. pose proof (byte_val_range c0) as C0.
    pose proof (byte_val_range c1) as C1. pose proof (byte_val_range c2) as C2.
    apply url_base64_char_inj in E0, E1, E2, E3;
      try (apply sextet_high || apply sextet_low || apply sextet_mid1
           || apply sextet_mid2; lia).
    destruct (sextets_arith _ _ _ B0 B1 B2) as (S0 & S1 & S2 & S3).
    destruct (sextets_arith _ _ _ C0 C1 C2) as (T0 & T1 & T2 & T3).
    rewrite S0, T0 in E0. rewrite S1, T1 in E1. rewrite S2, T2 in E2.
    rewrite S3, T3 in E3.
    assert (byte_val b0 = byte_val c0 /\ byte_val b1 = byte_val c1
            /\ byte_val b2 = byte_val c2) as (V0 & V1 & V2).
    { generalize dependent (byte_val b0). generalize dependent (byte_val b1).
      generalize dependent (byte_val b2). generalize dependent (byte_val c0).
      generalize dependent (byte_val c1). generalize dependent (byte_val c2).
      intros. Z.div_mod_to_equations. lia. }
    apply byte_val_inj in V0, V1, V2. subst c0 c1 c2. f_equal. f_equal. f_equal.
    apply IH; [simpl in Hl; lia | simpl in Hl'; lia | exact Er].
Qed.

(** ** createToken *)

Lemma createToken_ok (zone : moment.Zone) (now : Z) (buf : list byte)
    (u j : string) (w : World) :
  trim u <> "" -> trim j <> "" ->
  let doc := _buildToken zone now (token_of_buffer buf) u j in
  createToken zone now (Resolved buf) (JsString u) (JsString j) w
  = (Resolved doc,
     mkWorld (tokens w ++ [doc]) (users w)
       (io w ++ [RandomBytes 24;
                 InsertOne constants.COLLECTION_TOKENS (token_of_buffer buf)])).
Proof.
  intros Hu Hj doc. subst doc. unfold createToken, bind at 1, lift.
  rewrite !validateNoEmptyString_ok by assumption.
  unfold generateTokenPromise, insertOne, bind, perform, ret. simpl.
  rewrite <- app_assoc. reflexivity.
Qed.

Lemma format_bounds (t : Z) : t - 1000 < moment.format t <= t.
Proof.
  unfold moment.format.
  pose proof (Z.div_mod t 1000). pose proof (Z.mod_pos_bound t 1000). lia.
Qed.

Lemma add_week (zone : moment.Zone) (t : Z) :
  moment.add zone t
    (moment.duration constants.TOKEN_DURATION constants.TOKEN_DURATION_UNIT)
  = moment.toUTC zone (moment.toLocal zone t + 7 * 86400000).
Proof. unfold moment.add. simpl. apply Z.add_0_r. Qed.

Lemma format_add_week (t : Z) :
  moment.format (t + 7 * 86400000) = moment.format t + 7 * 86400000.
Proof.
  unfold moment.format. change (7 * 86400000) with (604800 * 1000).
  rewrite Z.div_add by lia. lia.
Qed.

(** With the same offset at both ends the seven days are 7 x 24 hours. *)
Lemma add_week_same_offset (zone : moment.Zone) (t : Z) :
  moment.offsetOfLocal zone (moment.toLocal zone t + 7 * 86400000)
  = moment.offsetAt zone t ->
  moment.toUTC zone (moment.toLocal zone t + 7 * 86400000) = t + 7 * 86400000.
Proof. unfold moment.toUTC, moment.toLocal. intros ->. lia. Qed.

(** The encoding on known bytes: "Man", and three bytes whose indices hit
    both replaced characters. *)
Example token_of_buffer_Man : token_of_buffer [x4d; x61; x6e] = "TWFu".
Proof. reflexivity. Qed.

Example token_of_buffer_replaced : token_of_buffer [xfb; xff; xbe] = "-_--".
Proof. reflexivity. Qed.

(** Across the start of summer time the seven days are an hour short. *)
Example expiry_london_spring_2017 :
  TokenDoc.expiryTime
    (_buildToken moment.london_spring_2017 1490184000000 "t" "u" "j")
  = Some 1490785200000.
Proof. reflexivity. Qed.

(** C6: createToken with valid arguments and the 24 bytes of the random
    source resolves with the document it inserted: status VALID; a history
    of one entry, with the time of creation (the clock reading, to the
    second) and the justification; an expiry time seven days after the
    clock reading on the calendar of the server's zone, which is the time
    of creation plus 7 x 24 hours when the zone's offset is the same at
    both ends; and a token of 32 characters, all of them letters, digits,
    '-' or '_', which is the base64 of the 24 bytes with '/' and '+'
    replaced and is the token of no other 24 bytes. *)
Theorem C6_createToken_record (zone : moment.Zone) (now : Z) (buf : list byte)
    (u j : string) (w : World) :
  trim u <> "" -> trim j <> "" -> length buf = 24%nat ->
  exists doc created e,
    createToken zone now (Resolved buf) (JsString u) (JsString j) w
    = (Resolved doc,
       mkWorld (tokens w ++ [doc]) (users w)
         (io w ++ [RandomBytes 24;
                   InsertOne constants.COLLECTION_TOKENS (TokenDoc.token doc)])) /\
    TokenDoc.status doc = constants.TOKEN_STATUS_VALID /\
    TokenDoc.user doc = Some u /\
    TokenDoc.hist doc = [e] /\ length (TokenDoc.hist doc) = 1%nat /\
    e !! "time" = Some (Timestamp created) /\
    e !! "reason" = Some (Text j) /\
    now - 1000 < created <= now /\
    TokenDoc.expiryTime doc
    = Some (moment.format
              (moment.toUTC zone (moment.toLocal zone now + 7 * 86400000))) /\
    (moment.offsetOfLocal zone (moment.toLocal zone now + 7 * 86400000)
     = moment.offsetAt zone now ->
     TokenDoc.expiryTime doc = Some (created + 7 * 86400000)) /\
    TokenDoc.token doc
    = replace_all "+" "-" (replace_all "/" "_" (base64 buf)) /\
    (forall buf', length buf' = 24%nat ->
       token_of_buffer buf' = TokenDoc.token doc -> buf' = buf) /\
    String.length (TokenDoc.token doc) = 32%nat /\
    string_forall url_safe (TokenDoc.token doc) = true.
Proof.
  intros Hu Hj Hlen.
  destruct (token_of_buffer_triples 8 buf Hlen) as [Hl Hs].
  exists (_buildToken zone now (token_of_buffer buf) u j), (moment.format now),
    (<["time" := Timestamp (moment.format now)]> (<["reason" := Text j]> ∅)).
  rewrite createToken_ok by assumption. cbn [_buildToken TokenDoc.token
    TokenDoc.status TokenDoc.hist TokenDoc.user TokenDoc.expiryTime].
  rewrite add_week.
  split; [reflexivity|]. split; [reflexivity|]. split; [reflexivity|].
  split; [reflexivity|]. split; [reflexivity|].
  split; [apply lookup_insert_eq|].
  split; [simplify_map_eq; reflexivity|].
  split; [apply format_bounds|]. split; [reflexivity|].
  split; [intros Hoff; rewrite add_week_same_offset, format_add_week by exact Hoff;
          reflexivity|].
  split; [reflexivity|].
  split; [intros buf' Hlen' E;
          apply (token_of_buffer_inj_triples 8 buf' buf Hlen' Hlen E)|].
  split; assumption.
Qed.

Lemma C6_createToken_record_witness :
  exists doc,
    fst (createToken moment.utc 1488369600123 (Resolved (repeat x00 12 ++ repeat xff 12))
           (JsString "user@example.com") (JsString "test creation")
           (mkWorld [] [] []))
    = Resolved doc /\
    String.length (TokenDoc.token doc) = 32%nat.
Proof.
  destruct (C6_createToken_record moment.utc 1488369600123
              (repeat x00 12 ++ repeat xff 12)
              "user@example.com" "test creation" (mkWorld [] [] []))
    as (doc & created & e & Hr & _ & _ & _ & _ & _ & _ & _ & _ & _ & _ & _ & Hl & _).
  - discriminate.
  - discriminate.
  - reflexivity.
  - exists doc. rewrite Hr. split; [reflexivity | exact Hl].
Defined.

(** C1, on the code: the entry _buildToken puts in hist and the entry
    revokeToken pushes hold a time and a reason and nothing else; neither
    names the operating user or the operation.  The last part runs
    createToken on the arguments of the repository's own test. *)
Theorem C1_history_entries_untagged :
  (forall zone now token user justification,
      exists e,
        TokenDoc.hist (_buildToken zone now token user justification) = [e] /\
        e !! "time" = Some (Timestamp (moment.format now)) /\
        e !! "reason" = Some (Text justification) /\
        e !! "operation" = None /\
        e !! "operating_user" = None /\
        e !! "operatingUser" = None /\
        size e = 2%nat) /\
  (forall now justification,
      revokeEntry now justification !! "time" = Some (Timestamp (moment.format now)) /\
      revokeEntry now justification !! "reason" = Some (Text justification) /\
      revokeEntry now justification !! "operation" = None /\
      revokeEntry now justification !! "operating_user" = None /\
      revokeEntry now justification !! "operatingUser" = None /\
      size (revokeEntry now justification) = 2%nat) /\
  (exists doc e,
      fst (createToken moment.utc 1488369600123 (Resolved (repeat x00 12 ++ repeat xff 12))
             (JsString "user@example.com") (JsString "test creation")
             (mkWorld [] [] []))
      = Resolved doc /\
      TokenDoc.hist doc = [e] /\
      e !! "operating_user" = None /\
      e !! "operation" = None).
Proof.
  assert (Hentry : forall now justification,
             revokeEntry now justification !! "time"
             = Some (Timestamp (moment.format now)) /\
             revokeEntry now justification !! "reason" = Some (Text justification) /\
             revokeEntry now justification !! "operation" = None /\
             revokeEntry now justification !! "operating_user" = None /\
             revokeEntry now justification !! "operatingUser" = None /\
             size (revokeEntry now justification) = 2%nat).
  { intros now justification. unfold revokeEntry.
    repeat split; simplify_map_eq; reflexivity. }
  split; [|split].
  - intros zone now token user justification. eexists. split; [reflexivity|].
    apply (Hentry now justification).
  - exact Hentry.
  - rewrite createToken_ok by discriminate.
    eexists _, _. split; [reflexivity|]. split; [reflexivity|].
    split; apply (Hentry 1488369600123 "test creation").
Qed.

(** ** Create, then validate *)

Lemma url_safe_not_white (c : ascii) :
  url_safe c = true -> forall s, white_space_length (String c s) = 0%nat.
Proof.
  destruct c as [[] [] [] [] [] [] [] []]; intros H; try discriminate H;
    intros [|c1 [|c2 s]]; reflexivity.
Qed.

(** A non-empty string of URL-safe characters passes the trim test. *)
Lemma url_safe_trim (s : string) :
  s <> "" -> string_forall url_safe s = true -> trim s <> "".
Proof.
  destruct s as [|c s]; [congruence|]. intros _ H. simpl in H.
  apply andb_prop in H as [Hc _].
  pose proof (url_safe_not_white c Hc s) as Hw.
  unfold trim, trimStart. cbn [trimStart_from]. rewrite Hw.
  cbn [trimEnd]. unfold all_white_space. cbn [all_white_space_from]. rewrite Hw.
  discriminate.
Qed.

Lemma token_of_buffer_valid (buf : list byte) :
  length buf = 24%nat -> trim (token_of_buffer buf) <> "".
Proof.
  intros Hlen. destruct (token_of_buffer_triples 8 buf Hlen) as [Hl Hs].
  apply url_safe_trim; [|exact Hs].
  intros E. rewrite E in Hl. discriminate.
Qed.

(** C7, as the code has it: when the generated token is not yet in the
    store, the user has exactly one document in the users collection and
    that document has a groups array, a token created for the user and
    validated no later than the expiry time stored in its document, with
    nothing required, gives true. *)
Theorem C7_create_then_validate (zone : moment.Zone) (now now' : Z)
    (buf : list byte) (u j : string) (w : World) (ud : UserDoc.t)
    (ug : list string) :
  trim u <> "" -> trim j <> "" -> length buf = 24%nat ->
  tokensMatching (token_of_buffer buf) w = [] ->
  usersMatching u w = [ud] ->
  UserDoc.groups ud = Some ug ->
  let created := createToken zone now (Resolved buf) (JsString u) (JsString j) w in
  exists doc expiry,
    fst created = Resolved doc /\
    TokenDoc.expiryTime doc = Some expiry /\
    (now' <= expiry ->
     fst (validateToken now' (JsArray []) (JsString (TokenDoc.token doc))
            (snd created))
     = Resolved true).
Proof.
  intros Hu Hj Hlen Hfresh Huser Hgroups created. subst created.
  rewrite createToken_ok by assumption.
  eexists _, _. split; [reflexivity|]. split; [reflexivity|].
  intros Hnow. cbn [fst snd _buildToken TokenDoc.token].
  unfold validateToken, bind at 1, lift.
  replace (_validate "validateToken" "groups" (JsArray []) None)
    with (Resolved tt) by reflexivity.
  cbn [obind instanceof_Array assert].
  rewrite validateNoEmptyString_ok by (apply token_of_buffer_valid; exact Hlen).
  assert (Hone : tokensMatching (token_of_buffer buf)
                   (mkWorld (tokens w ++ [_buildToken zone now (token_of_buffer buf) u j])
                      (users w) [])
                 = [_buildToken zone now (token_of_buffer buf) u j]).
  { unfold tokensMatching in *. simpl.
    rewrite filter_app, Hfresh, filter_cons, filter_nil. simpl.
    rewrite decide_True by reflexivity. reflexivity. }
  unfold_lookup. repeat (rewrite Hone; simpl).
  replace (moment.isAfter now'
             (moment.format
                (moment.add zone now
                   (moment.duration constants.TOKEN_DURATION
                      constants.TOKEN_DURATION_UNIT)))) with false.
  2:{ symmetry. unfold moment.isAfter. apply Z.ltb_ge. exact Hnow. }
  match goal with
  | |- fst (validateUser _ _ ?w') = _ =>
      rewrite (validateUser_one [] u w' ud Hu Huser)
  end.
  rewrite Hgroups. reflexivity.
Qed.

Lemma C7_create_then_validate_witness :
  exists doc,
    fst (createToken moment.utc 1500 (Resolved (repeat x00 12 ++ repeat xff 12))
           (JsString "user@example.com") (JsString "test creation")
           (mkWorld [] [UserDoc.mk "user@example.com" (Some ["1"; "2"; "5"])] []))
    = Resolved doc /\
    fst (validateToken 2000 (JsArray []) (JsString (TokenDoc.token doc))
           (snd (createToken moment.utc 1500
                   (Resolved (repeat x00 12 ++ repeat xff 12))
                   (JsString "user@example.com") (JsString "test creation")
                   (mkWorld [] [UserDoc.mk "user@example.com"
                                  (Some ["1"; "2"; "5"])] []))))
    = Resolved true.
Proof.
  destruct (C7_create_then_validate moment.utc 1500 2000
              (repeat x00 12 ++ repeat xff 12)
              "user@example.com" "test creation"
              (mkWorld [] [UserDoc.mk "user@example.com" (Some ["1"; "2"; "5"])] [])
              (UserDoc.mk "user@example.com" (Some ["1"; "2"; "5"])) ["1"; "2"; "5"]
              ltac:(discriminate) ltac:(discriminate) eq_refl eq_refl eq_refl eq_refl)
    as (doc & expiry & Hr & He & Hv).
  exists doc. split; [exact Hr|]. apply Hv.
  rewrite createToken_ok in Hr by discriminate. injection Hr as <-.
  injection He as <-. vm_compute. discriminate.
Defined.

(** C7 as stated fails: the user has exactly one document in the users
    collection, but it has no groups field, and the token just created
    validates to false with nothing required. *)
Lemma C7_counterexample :
  let w := mkWorld [] [UserDoc.mk "nogroups@example.com" None] [] in
  let created :=
    createToken moment.utc 1500 (Resolved (repeat x00 12 ++ repeat xff 12))
      (JsString "nogroups@example.com") (JsString "test creation") w in
  usersMatching "nogroups@example.com" w = [UserDoc.mk "nogroups@example.com" None] /\
  exists doc,
    fst created = Resolved doc /\
    fst (validateToken 1500 (JsArray []) (JsString (TokenDoc.token doc))
           (snd created))
    = Resolved false.
Proof.
  split; [reflexivity|]. eexists. split; vm_compute; reflexivity.
Qed.

(** ** listTokens *)

Lemma string_lt_irrefl (s : string) : ~ String_as_OT.lt s s.
Proof. apply (StrictOrder_Irreflexive (R := String_as_OT.lt)). Qed.

Lemma string_lt_trans (a b c : string) :
  String_as_OT.lt a b -> String_as_OT.lt b c -> String_as_OT.lt a c.
Proof. apply (StrictOrder_Transitive (R := String_as_OT.lt)). Qed.

#[global] Instance status_desc_total : Total status_desc.
Proof.
  intros a b. unfold status_desc.
  destruct (String_as_OT.compare (TokenDoc.status a) (TokenDoc.status b)) eqn:E;
    [left; discriminate | | left; discriminate].
  right. intros E'.
  apply (string_lt_irrefl (TokenDoc.status a)).
  eapply string_lt_trans; [exact E | exact E'].
Qed.

#[global] Instance status_desc_trans : Transitive status_desc.
Proof.
  intros a b c. unfold status_desc. intros Hab Hbc Hac.
  destruct (String_as_OT.compare_spec (TokenDoc.status a) (TokenDoc.status b))
    as [Eab | Lab | Lba]; [| congruence |].
  - rewrite Eab in *. congruence.
  - destruct (String_as_OT.compare_spec (TokenDoc.status b) (TokenDoc.status c))
      as [Ebc | Lbc | Lcb]; [| congruence |].
    + rewrite Ebc in *. apply (string_lt_irrefl (TokenDoc.status c)).
      eapply string_lt_trans; [exact Lba | exact Hac].
    + apply (string_lt_irrefl (TokenDoc.status a)).
      eapply string_lt_trans; [exact Hac|].
      eapply string_lt_trans; [exact Lcb | exact Lba].
Qed.

Lemma StronglySorted_lookup {A} (R : relation A) (l : list A) (i k : nat) (a b : A) :
  StronglySorted R l -> (i < k)%nat ->
  l !! i = Some a -> l !! k = Some b -> R a b.
Proof.
  intros Hs. revert i k a b.
  induction Hs as [|x l Hs IH Hall]; intros i k a b Hik Hi Hk.
  - discriminate.
  - destruct k as [|k]; [lia|]. destruct i as [|i]; simpl in *.
    + injection Hi as ->. rewrite Forall_forall in Hall.
      apply Hall, list_elem_of_lookup. eauto.
    + apply (IH i k); [lia | assumption | assumption].
Qed.

(** C8: for a non-empty user string listTokens resolves with the user's
    token documents, all of them and no others, every document with status
    VALID standing before every document with status REVOKED; with no
    token for the user the result is the empty array. *)
Theorem C8_listTokens_order (u : string) (w : World) :
  u <> "" ->
  exists l,
    listTokens (JsString u) w
    = (Resolved l, asked w [ToArray constants.COLLECTION_TOKENS (ByUser u)]) /\
    l ≡ₚ tokensOf u w /\
    (forall d, d ∈ l <-> d ∈ tokens w /\ TokenDoc.user d = Some u) /\
    (forall i k a b,
        l !! i = Some a -> l !! k = Some b ->
        TokenDoc.status a = constants.TOKEN_STATUS_VALID ->
        TokenDoc.status b = constants.TOKEN_STATUS_REVOKED ->
        (i < k)%nat) /\
    (tokensOf u w = [] -> l = []).
Proof.
  intros Hne. exists (merge_sort status_desc (tokensOf u w)).
  assert (Hperm : merge_sort status_desc (tokensOf u w) ≡ₚ tokensOf u w)
    by apply merge_sort_Permutation.
  split; [|split; [|split; [|split]]].
  - unfold listTokens, bind, lift, perform, assert, obind, asked, tokensOf. simpl.
    rewrite (eqb_empty_false u) by exact Hne. reflexivity.
  - exact Hperm.
  - intros d. rewrite Hperm. unfold tokensOf. rewrite list_elem_of_filter. tauto.
  - intros i k a b Hi Hk Ha Hb.
    destruct (Nat.lt_trichotomy i k) as [Hlt | [Heq | Hgt]]; [exact Hlt | |].
    + subst k. rewrite Hi in Hk. injection Hk as ->.
      rewrite Ha in Hb. discriminate.
    + exfalso.
      pose proof (StronglySorted_merge_sort status_desc (tokensOf u w)) as Hs.
      pose proof (StronglySorted_lookup _ _ _ _ _ _ Hs Hgt Hk Hi) as Hba.
      unfold status_desc in Hba. rewrite Ha, Hb in Hba. apply Hba. reflexivity.
  - intros Hnil. rewrite Hnil. reflexivity.
Qed.

Lemma C8_listTokens_order_witness :
  exists l,
    listTokens (JsString "user@example.com")
      (mkWorld [TokenDoc.mk "BBBB" "revoked" [] (Some "user@example.com") None;
                TokenDoc.mk "CCCC" "valid" [] (Some "user@example.com") None;
                TokenDoc.mk "DDDD" "valid" [] (Some "other@example.com") None]
         [] [])
    = (Resolved l,
       asked (mkWorld [TokenDoc.mk "BBBB" "revoked" [] (Some "user@example.com") None;
                       TokenDoc.mk "CCCC" "valid" [] (Some "user@example.com") None;
                       TokenDoc.mk "DDDD" "valid" [] (Some "other@example.com") None]
                [] [])
         [ToArray constants.COLLECTION_TOKENS (ByUser "user@example.com")]).
Proof.
  destruct (C8_listTokens_order "user@example.com"
              (mkWorld [TokenDoc.mk "BBBB" "revoked" [] (Some "user@example.com") None;
                        TokenDoc.mk "CCCC" "valid" [] (Some "user@example.com") None;
                        TokenDoc.mk "DDDD" "valid" [] (Some "other@example.com") None]
                 [] []))
    as (l & Hl & _).
  - discriminate.
  - exists l. exact Hl.
Defined.

Example listTokens_valid_first :
  fst (listTokens (JsString "user@example.com")
         (mkWorld [TokenDoc.mk "BBBB" "revoked" [] (Some "user@example.com") None;
                   TokenDoc.mk "CCCC" "valid" [] (Some "user@example.com") None;
                   TokenDoc.mk "DDDD" "valid" [] (Some "other@example.com") None]
            [] []))
  = Resolved [TokenDoc.mk "CCCC" "valid" [] (Some "user@example.com") None;
              TokenDoc.mk "BBBB" "revoked" [] (Some "user@example.com") None].
Proof. vm_compute. reflexivity. Qed.

(** ** The status of stored documents over sequences of calls *)

Lemma transition_refl (d : TokenDoc.t) : transition d d.
Proof. split; [reflexivity | left; reflexivity]. Qed.

Lemma transition_trans (d1 d2 d3 : TokenDoc.t) :
  transition d1 d2 -> transition d2 d3 -> transition d1 d3.
Proof.
  intros [Ht1 Hs1] [Ht2 Hs2]. split; [congruence|].
  destruct Hs2 as [Hs2|Hs2]; [|right; exact Hs2].
  destruct Hs1 as [Hs1|Hs1]; [left | right]; congruence.
Qed.

Lemma evolves_same (w w' : World) : tokens w' = tokens w -> evolves w w'.
Proof.
  intros E i d Hd. exists d. rewrite E. split; [exact Hd | apply transition_refl].
Qed.

Lemma evolves_trans (w1 w2 w3 : World) :
  evolves w1 w2 -> evolves w2 w3 -> evolves w1 w3.
Proof.
  intros H12 H23 i d Hd.
  destruct (H12 i d Hd) as (d2 & Hd2 & T12).
  destruct (H23 i d2 Hd2) as (d3 & Hd3 & T23).
  exists d3. split; [exact Hd3 | eapply transition_trans; eassumption].
Qed.

Lemma evolves_insert (w w' : World) (doc : TokenDoc.t) :
  tokens w' = tokens w ++ [doc] -> evolves w w'.
Proof.
  intros E i d Hd. exists d. rewrite E.
  split; [apply lookup_app_l_Some; exact Hd | apply transition_refl].
Qed.

Lemma findOneAndUpdate_evolves (tok : string) (upd : Update) (l : list TokenDoc.t) :
  set_status upd = constants.TOKEN_STATUS_REVOKED ->
  forall i d, l !! i = Some d ->
    exists d', snd (findOneAndUpdate tok upd l) !! i = Some d' /\ transition d d'.
Proof.
  intros Hupd. induction l as [|a l IH]; intros i d Hd; [discriminate|].
  simpl. destruct (decide (TokenDoc.token a = tok)) as [Ha|Ha].
  - destruct i as [|i]; simpl in *.
    + injection Hd as ->. eexists. split; [reflexivity|].
      split; [reflexivity | right; exact Hupd].
    + exists d. split; [exact Hd | apply transition_refl].
  - destruct (findOneAndUpdate tok upd l) as [r l''] eqn:E. simpl in *.
    destruct i as [|i]; simpl in *.
    + injection Hd as ->. exists d. split; [reflexivity | apply transition_refl].
    + apply IH. exact Hd.
Qed.

(** What createToken does to the tokens collection, whatever its
    arguments: nothing, or one document with status VALID is appended and
    returned. *)
Lemma createToken_tokens (zone : moment.Zone) (now : Z)
    (random : Outcome (list byte)) (user justification : JsValue) (w : World) :
  let call := createToken zone now random user justification w in
  ((exists e, fst call = Rejected e) /\ tokens (snd call) = tokens w)
  \/ (exists doc, fst call = Resolved doc /\
                  TokenDoc.status doc = constants.TOKEN_STATUS_VALID /\
                  tokens (snd call) = tokens w ++ [doc]).
Proof.
  intros call. subst call. unfold createToken, bind at 1, lift.
  destruct (validateNoEmptyString_cases "createToken" "user" user)
    as [(u & -> & ->) | (msg & ->)]; simpl; [|left; eauto].
  destruct (validateNoEmptyString_cases "createToken" "justification" justification)
    as [(j & -> & ->) | (msg & ->)]; simpl; [|left; eauto].
  unfold generateTokenPromise, insertOne, bind, perform, ret, reject.
  destruct random as [buf|err]; simpl; [|left; eauto].
  right. eexists. repeat split.
Qed.

Lemma revokeToken_tokens (now : Z) (user token justification : JsValue)
    (w : World) :
  let call := revokeToken now user token justification w in
  tokens (snd call) = tokens w
  \/ (exists tok upd,
         set_status upd = constants.TOKEN_STATUS_REVOKED /\
         tokens (snd call) = snd (findOneAndUpdate tok upd (tokens w))).
Proof.
  intros call. subst call. unfold revokeToken, bind at 1, lift.
  destruct (validateNoEmptyString_cases "revokeToken" "user" user)
    as [(u & -> & ->) | (msg & ->)]; simpl; [|left; reflexivity].
  destruct (validateNoEmptyString_cases "revokeToken" "token" token)
    as [(t & -> & ->) | (msg & ->)]; simpl; [|left; reflexivity].
  destruct (validateNoEmptyString_cases "revokeToken" "justification" justification)
    as [(j & -> & ->) | (msg & ->)]; simpl; [|left; reflexivity].
  unfold_lookup.
  destruct (length (filter (fun d => TokenDoc.token d = t) (tokens w)) =? 1)%nat;
    simpl; [|left; reflexivity].
  destruct (head (filter (fun d => TokenDoc.token d = t) (tokens w))) as [doc|];
    simpl; [|left; reflexivity].
  destruct (decide (Some u = TokenDoc.user doc)); simpl; [|left; reflexivity].
  right. unfold _updateToken, bind, perform. simpl.
  exists (TokenDoc.token doc),
    (mkUpdate constants.TOKEN_STATUS_REVOKED (revokeEntry now j)).
  split; [reflexivity|].
  destruct (findOneAndUpdate (TokenDoc.token doc)
              (mkUpdate constants.TOKEN_STATUS_REVOKED (revokeEntry now j))
              (tokens w)) as [value l]. reflexivity.
Qed.

Lemma listTokens_tokens (user : JsValue) (w : World) :
  tokens (snd (listTokens user w)) = tokens w.
Proof.
  unfold listTokens, bind, lift, perform, assert, obind.
  destruct user as [| |b|n|s|xs]; simpl; try reflexivity.
  - destruct b; reflexivity.
  - destruct (n =? 0); reflexivity.
  - destruct (String.eqb s ""); reflexivity.
Qed.

Lemma validateUser_tokens (groups user : JsValue) (w : World) :
  tokens (snd (validateUser groups user w)) = tokens w.
Proof.
  unfold validateUser, bind at 1, lift.
  destruct (validate_groups_cases "validateUser" groups)
    as [(gs & -> & ->) | (Hi & [(msg & ->) | ->])]; simpl; [|reflexivity|].
  - destruct (validateNoEmptyString_cases "validateUser" "user" user)
      as [(u & -> & ->) | (msg & ->)]; simpl; [|reflexivity].
    unfold_lookup.
    destruct (length (filter (fun d => UserDoc.user d = u) (users w)) =? 1)%nat;
      simpl; [|reflexivity].
    destruct (head (filter (fun d => UserDoc.user d = u) (users w))); reflexivity.
  - destruct groups; simpl; try reflexivity. discriminate.
Qed.

Lemma validateToken_tokens (now : Z) (groups token : JsValue) (w : World) :
  tokens (snd (validateToken now groups token w)) = tokens w.
Proof.
  unfold validateToken, bind at 1, lift.
  destruct (validate_groups_cases "validateToken" groups)
    as [(gs & -> & ->) | (Hi & [(msg & ->) | ->])]; simpl;
    [|reflexivity|rewrite Hi; reflexivity].
  destruct (validateNoEmptyString_cases "validateToken" "token" token)
    as [(t & -> & ->) | (msg & ->)]; simpl; [|reflexivity].
  unfold_lookup.
  destruct (length (filter (fun d => TokenDoc.token d = t) (tokens w)) =? 1)%nat;
    simpl; [|reflexivity].
  destruct (head (filter (fun d => TokenDoc.token d = t) (tokens w))) as [doc|];
    simpl; [|reflexivity].
  destruct (String.eqb (TokenDoc.status doc) constants.TOKEN_STATUS_REVOKED);
    [reflexivity|].
  destruct (match TokenDoc.expiryTime doc with
            | Some e => moment.isAfter now e
            | None => false
            end); [reflexivity|].
  rewrite validateUser_tokens. reflexivity.
Qed.

Lemma exec_evolves (op : Operation) (w : World) : evolves w (exec op w).
Proof.
  destruct op as [zone now random user justification
                  | now user token justification
                  | user | now groups token]; simpl.
  - destruct (createToken_tokens zone now random user justification w)
      as [[_ E] | (doc & _ & _ & E)].
    + apply evolves_same. exact E.
    + eapply evolves_insert. exact E.
  - destruct (revokeToken_tokens now user token justification w)
      as [E | (tok & upd & Hupd & E)].
    + apply evolves_same. exact E.
    + intros i d Hd. rewrite E. apply findOneAndUpdate_evolves; assumption.
  - apply evolves_same, listTokens_tokens.
  - apply evolves_same, validateToken_tokens.
Qed.

Lemma execAll_evolves (ops : list Operation) (w : World) :
  evolves w (execAll ops w).
Proof.
  revert w. induction ops as [|op ops IH]; intros w.
  - apply evolves_same. reflexivity.
  - simpl. eapply evolves_trans; [apply exec_evolves | apply IH].
Qed.

(** C9: a document that createToken returns was stored with status VALID;
    a single call of createToken, revokeToken, listTokens or validateToken,
    and so any sequence of such calls, leaves every stored document in
    place with its token and with a status that is either the one it had
    or REVOKED; so a document that is REVOKED is REVOKED after any sequence
    of calls, and one that is not VALID never becomes VALID. *)
Theorem C9_status_monotone :
  (forall zone now random user justification w doc,
      fst (createToken zone now random user justification w) = Resolved doc ->
      TokenDoc.status doc = constants.TOKEN_STATUS_VALID /\
      tokens (snd (createToken zone now random user justification w))
      = tokens w ++ [doc]) /\
  (forall op w, evolves w (exec op w)) /\
  (forall ops w, evolves w (execAll ops w)) /\
  (forall ops w i d,
      tokens w !! i = Some d ->
      TokenDoc.status d = constants.TOKEN_STATUS_REVOKED ->
      exists d', tokens (execAll ops w) !! i = Some d' /\
                 TokenDoc.token d' = TokenDoc.token d /\
                 TokenDoc.status d' = constants.TOKEN_STATUS_REVOKED) /\
  (forall ops w i d d',
      tokens w !! i = Some d ->
      tokens (execAll ops w) !! i = Some d' ->
      TokenDoc.status d <> constants.TOKEN_STATUS_VALID ->
      TokenDoc.status d' <> constants.TOKEN_STATUS_VALID).
Proof.
  split; [|split; [|split; [|split]]].
  - intros zone now random user justification w doc Hdoc.
    destruct (createToken_tokens zone now random user justification w)
      as [[[e He] _] | (doc' & Hr & Hst & E)].
    + rewrite He in Hdoc. discriminate.
    + rewrite Hr in Hdoc. injection Hdoc as <-. split; assumption.
  - apply exec_evolves.
  - apply execAll_evolves.
  - intros ops w i d Hd Hst.
    destruct (execAll_evolves ops w i d Hd) as (d' & Hd' & Htok & Hs).
    exists d'. split; [exact Hd'|]. split; [exact Htok|].
    destruct Hs as [Hs|Hs]; congruence.
  - intros ops w i d d' Hd Hd' Hst.
    destruct (execAll_evolves ops w i d Hd) as (d2 & Hd2 & _ & Hs).
    rewrite Hd' in Hd2. injection Hd2 as <-.
    destruct Hs as [Hs|Hs]; [congruence|]. rewrite Hs. discriminate.
Qed.

Lemma C9_status_monotone_witness :
  exists d',
    tokens (execAll
              [Revoke 2000 (JsString "user@example.com") (JsString "AAAA")
                 (JsString "again");
               Create moment.utc 3000 (Resolved (repeat x00 12 ++ repeat xff 12))
                 (JsString "user@example.com") (JsString "new");
               Validate 4000 (JsArray []) (JsString "AAAA");
               List (JsString "user@example.com")]
              (mkWorld [TokenDoc.mk "AAAA" "revoked" [] (Some "user@example.com") None]
                 [] [])) !! 0%nat
    = Some d' /\
    TokenDoc.token d' = "AAAA" /\
    TokenDoc.status d' = constants.TOKEN_STATUS_REVOKED.
Proof.
  apply (proj1 (proj2 (proj2 (proj2 C9_status_monotone)))
           [Revoke 2000 (JsString "user@example.com") (JsString "AAAA")
              (JsString "again");
            Create moment.utc 3000 (Resolved (repeat x00 12 ++ repeat xff 12))
              (JsString "user@example.com") (JsString "new");
            Validate 4000 (JsArray []) (JsString "AAAA");
            List (JsString "user@example.com")]
           (mkWorld [TokenDoc.mk "AAAA" "revoked" [] (Some "user@example.com") None]
              [] [])
           0%nat
           (TokenDoc.mk "AAAA" "revoked" [] (Some "user@example.com") None)).
  - reflexivity.
  - reflexivity.
Defined.

(** * Further properties of the model and of its callers *)

(** ** Validation, completely *)

Lemma trimEnd_empty (s : string) : trimEnd s = "" -> all_white_space s = true.
Proof.
  destruct s as [|c s]; [reflexivity|]. cbn [trimEnd].
  destruct (all_white_space (String c s)); [reflexivity | discriminate].
Qed.

Lemma trimStart_from_white_inv (s : string) (k : nat) :
  all_white_space (trimStart_from k s) = true -> all_white_space_from k s = true.
Proof.
  revert k. induction s as [|c s IH]; intros k; [reflexivity|].
  cbn [all_white_space_from trimStart_from]. destruct k as [|k]; [|apply IH].
  destruct (white_space_length (String c s)) eqn:E; [|apply IH].
  unfold all_white_space. cbn [all_white_space_from]. rewrite E. discriminate.
Qed.

Lemma trimStart_white_inv (s : string) :
  all_white_space (trimStart s) = true -> all_white_space s = true.
Proof. apply trimStart_from_white_inv. Qed.

Lemma trim_empty_iff (s : string) : trim s = "" <-> all_white_space s = true.
Proof.
  split; [|apply trim_blank].
  intros H. apply trimStart_white_inv, trimEnd_empty, H.
Qed.

Lemma validString_ok (scope name : string) (v : JsValue) :
  validString v = true ->
  exists s, v = JsString s /\
            _validateNoEmptyString scope name v (Some "string") = Resolved s.
Proof.
  destruct v as [| |b|n|s|xs]; simpl; try discriminate.
  intros H. exists s. split; [reflexivity|].
  apply validateNoEmptyString_ok. rewrite trim_empty_iff.
  destruct (all_white_space s); [discriminate | congruence].
Qed.

Lemma validString_ko (scope name : string) (v : JsValue) :
  validString v = false ->
  exists msg, _validateNoEmptyString scope name v (Some "string")
              = Rejected (AssertionError msg).
Proof.
  intros H.
  destruct (validateNoEmptyString_cases scope name v) as [(s & -> & E) | Hr];
    [|exact Hr].
  exfalso. simpl in H. apply negb_false_iff in H.
  unfold _validateNoEmptyString, _validate, assert, obind in E. simpl in E.
  destruct (String.eqb s ""); simpl in E; [discriminate|].
  rewrite (trim_blank s H) in E. discriminate.
Qed.

(** X1: what _validateNoEmptyString, asked for a string, does with any
    value.  It hands back [s] exactly for a string [s] holding a character
    that is not white space.  A falsy value, the empty string among them,
    is reported as not defined; a truthy value of another type as not
    being a string; a string of white space only as an empty string. *)
Theorem X1_validation_classes (scope name : string) (v : JsValue) :
  let r := _validateNoEmptyString scope name v (Some "string") in
  (forall s, r = Resolved s <-> v = JsString s /\ all_white_space s = false) /\
  (truthy v = false ->
     r = Rejected (AssertionError (scope +:+ ": " +:+ name +:+ " is not defined"))) /\
  (truthy v = true -> typeof v <> "string" ->
     r = Rejected (AssertionError (scope +:+ ": " +:+ name +:+ " must be a string"))) /\
  (forall s, v = JsString s -> s <> "" -> all_white_space s = true ->
     r = Rejected (AssertionError
                     (scope +:+ ": " +:+ name +:+ " cannot be empty string"))).
Proof.
  intros r. subst r. split; [|split; [|split]].
  - intros s. split.
    + intros E.
      destruct (validString v) eqn:Hv.
      * destruct (validString_ok scope name v Hv) as (s' & -> & E').
        rewrite E' in E. injection E as ->. split; [reflexivity|].
        simpl in Hv. apply negb_true_iff in Hv. exact Hv.
      * destruct (validString_ko scope name v Hv) as (msg & E').
        rewrite E' in E. discriminate.
    + intros [-> Hs].
      destruct (validString_ok scope name (JsString s)) as (s' & [= <-] & E');
        [simpl; rewrite Hs; reflexivity | exact E'].
  - intros Hf. unfold _validateNoEmptyString, _validate, assert, obind.
    rewrite Hf. reflexivity.
  - intros Ht Hty. unfold _validateNoEmptyString, _validate, assert, obind.
    rewrite Ht. simpl.
    destruct v as [| |b|n|s|xs]; simpl in *; try reflexivity; congruence.
  - intros s -> Hne Hws. apply validateNoEmptyString_blank. split; assumption.
Qed.

Lemma X1_validation_classes_witness :
  _validateNoEmptyString "createToken" "user" (JsString "") (Some "string")
  = Rejected (AssertionError "createToken: user is not defined").
Proof.
  apply (proj1 (proj2 (X1_validation_classes "createToken" "user" (JsString "")))).
  reflexivity.
Defined.

(** ** Relations between the world before and after a call *)

Section Preserves.

Context (P : World -> World -> Prop) `{!PreOrder P}.

Lemma preserves_pure {A} (m : M A) :
  (forall w, snd (m w) = w) -> preserves P m.
Proof. intros H w. rewrite H. reflexivity. Qed.

Lemma preserves_ret {A} (a : A) : preserves P (ret a).
Proof. apply preserves_pure. reflexivity. Qed.

Lemma preserves_reject {A} (e : Exn) : preserves P (reject (A := A) e).
Proof. apply preserves_pure. reflexivity. Qed.

Lemma preserves_lift {A} (o : Outcome A) : preserves P (lift o).
Proof. apply preserves_pure. reflexivity. Qed.

Lemma preserves_bind {A B} (m : M A) (k : A -> M B) :
  preserves P m -> (forall a, preserves P (k a)) -> preserves P (bind m k).
Proof.
  intros Hm Hk w. unfold bind. specialize (Hm w).
  destruct (m w) as [[a|e] w1]; simpl in *; [|exact Hm].
  etransitivity; [exact Hm | apply Hk].
Qed.

Lemma preserves_deref {A} (doc : option A) : preserves P (deref doc).
Proof. destruct doc; [apply preserves_ret | apply preserves_reject]. Qed.

Lemma preserves_findMatchingTokens (token : string) :
  preserves P (findMatchingTokens token).
Proof. apply preserves_ret. Qed.

(** Counting and reading a cursor preserve whatever a read event does. *)
Hypothesis P_read :
  forall ev w, isRead ev = true -> P w (asked w [ev]).

Lemma preserves_read (ev : IoEvent) : isRead ev = true -> preserves P (perform ev).
Proof. intros H w. apply P_read. exact H. Qed.

Lemma preserves_count {A} (c : Cursor A) : preserves P (count c).
Proof.
  apply preserves_bind; [apply preserves_read; reflexivity|].
  intros _. apply preserves_pure. reflexivity.
Qed.

Lemma preserves_next {A} (c : Cursor A) : preserves P (next c).
Proof.
  apply preserves_bind; [apply preserves_read; reflexivity|].
  intros _. apply preserves_pure. reflexivity.
Qed.

Lemma preserves_cursorHasExactlyOneDoc {A} (c : Cursor A) :
  preserves P (cursorHasExactlyOneDoc c).
Proof.
  apply preserves_bind; [apply preserves_count|].
  intros n. destruct (Nat.eqb n 1); [apply preserves_ret | apply preserves_reject].
Qed.

Lemma preserves_listTokens (user : JsValue) : preserves P (listTokens user).
Proof.
  apply preserves_bind; [apply preserves_lift|]. intros u.
  apply preserves_bind; [apply preserves_read; reflexivity|].
  intros _. apply preserves_pure. reflexivity.
Qed.

Lemma preserves_validateUser (groups user : JsValue) :
  preserves P (validateUser groups user).
Proof.
  apply preserves_bind; [apply preserves_lift|]. intros [gs u].
  apply preserves_bind; [apply preserves_cursorHasExactlyOneDoc|]. intros _.
  apply preserves_bind; [apply preserves_next|]. intros d.
  apply preserves_bind; [apply preserves_deref|]. intros doc.
  apply preserves_ret.
Qed.

Lemma preserves_validateToken (now : Z) (groups token : JsValue) :
  preserves P (validateToken now groups token).
Proof.
  apply preserves_bind; [apply preserves_lift|]. intros t.
  apply preserves_bind; [apply preserves_findMatchingTokens|]. intros c.
  apply preserves_bind; [apply preserves_cursorHasExactlyOneDoc|]. intros _.
  apply preserves_bind; [apply preserves_next|]. intros d.
  apply preserves_bind; [apply preserves_deref|]. intros doc.
  destruct (String.eqb (TokenDoc.status doc) constants.TOKEN_STATUS_REVOKED);
    [apply preserves_ret|].
  destruct (match TokenDoc.expiryTime doc with
            | Some e => moment.isAfter now e
            | None => false
            end); [apply preserves_ret | apply preserves_validateUser].
Qed.

(** The two writes and the read of the random source. *)
Hypothesis P_random : forall n w, P w (asked w [RandomBytes n]).
Hypothesis P_insert :
  forall doc w, P w (snd (insertOne doc w)).
Hypothesis P_update :
  forall doc update w, P w (snd (_updateToken doc update w)).

Lemma preserves_createToken (zone : moment.Zone) (now : Z)
    (random : Outcome (list byte)) (user justification : JsValue) :
  preserves P (createToken zone now random user justification).
Proof.
  apply preserves_bind; [apply preserves_lift|]. intros [u j].
  apply preserves_bind.
  - apply preserves_bind; [intros w; apply P_random|]. intros _.
    destruct random; [apply preserves_ret | apply preserves_reject].
  - intros token. apply preserves_bind; [intros w; apply P_insert|].
    intros _. apply preserves_ret.
Qed.

Lemma preserves_revokeToken (now : Z) (user token justification : JsValue) :
  preserves P (revokeToken now user token justification).
Proof.
  apply preserves_bind; [apply preserves_lift|]. intros [[u t] j].
  apply preserves_bind; [apply preserves_findMatchingTokens|]. intros c.
  apply preserves_bind; [apply preserves_cursorHasExactlyOneDoc|]. intros _.
  apply preserves_bind; [apply preserves_next|]. intros d.
  apply preserves_bind; [apply preserves_deref|]. intros doc.
  apply preserves_bind.
  - destruct (decide (Some u = TokenDoc.user doc));
      [apply preserves_ret | apply preserves_reject].
  - intros _ w. apply P_update.
Qed.

Lemma preserves_exec (op : Operation) (w : World) : P w (exec op w).
Proof.
  destruct op; simpl.
  - apply preserves_createToken.
  - apply preserves_revokeToken.
  - apply preserves_listTokens.
  - apply preserves_validateToken.
Qed.

Lemma preserves_execAll (ops : list Operation) (w : World) : P w (execAll ops w).
Proof.
  revert w. induction ops as [|op ops IH]; intros w; simpl.
  - reflexivity.
  - etransitivity; [apply preserves_exec | apply IH].
Qed.

End Preserves.

(** ** What no call ever does to the store *)

Lemma kept_refl (d : TokenDoc.t) : kept d d.
Proof. repeat split; reflexivity. Qed.

Lemma kept_trans (d1 d2 d3 : TokenDoc.t) : kept d1 d2 -> kept d2 d3 -> kept d1 d3.
Proof.
  intros (Ht1 & Hu1 & He1 & Hh1) (Ht2 & Hu2 & He2 & Hh2).
  repeat split; try congruence. etransitivity; eassumption.
Qed.

#[global] Instance extends_preorder : PreOrder extends.
Proof.
  split.
  - intros w. repeat split; try reflexivity.
    intros i d Hd. exists d. split; [exact Hd | apply kept_refl].
  - intros w1 w2 w3 (Hu1 & Hi1 & Hl1 & Hd1) (Hu2 & Hi2 & Hl2 & Hd2).
    split; [congruence|]. split; [etransitivity; eassumption|].
    split; [lia|]. intros i d Hd.
    destruct (Hd1 i d Hd) as (d2 & Hd2' & K12).
    destruct (Hd2 i d2 Hd2') as (d3 & Hd3 & K23).
    exists d3. split; [exact Hd3 | eapply kept_trans; eassumption].
Qed.

Lemma extends_asked (w : World) (evs : list IoEvent) : extends w (asked w evs).
Proof.
  unfold asked. repeat split; simpl; try reflexivity.
  - apply prefix_app_r. reflexivity.
  - intros i d Hd. exists d. split; [exact Hd | apply kept_refl].
Qed.

Lemma extends_insertOne (doc : TokenDoc.t) (w : World) :
  extends w (snd (insertOne doc w)).
Proof.
  unfold insertOne, bind, perform. simpl. repeat split; simpl.
  - apply prefix_app_r. reflexivity.
  - rewrite length_app. lia.
  - intros i d Hd. exists d.
    split; [apply lookup_app_l_Some; exact Hd | apply kept_refl].
Qed.

Lemma findOneAndUpdate_length (tok : string) (upd : Update) (l : list TokenDoc.t) :
  length (snd (findOneAndUpdate tok upd l)) = length l.
Proof.
  induction l as [|a l IH]; simpl; [reflexivity|].
  destruct (decide (TokenDoc.token a = tok)); simpl; [reflexivity|].
  destruct (findOneAndUpdate tok upd l) as [r l']. simpl in *. congruence.
Qed.

Lemma findOneAndUpdate_kept (tok : string) (upd : Update) (l : list TokenDoc.t) :
  forall i d, l !! i = Some d ->
    exists d', snd (findOneAndUpdate tok upd l) !! i = Some d' /\ kept d d'.
Proof.
  induction l as [|a l IH]; intros i d Hd; [discriminate|].
  simpl. destruct (decide (TokenDoc.token a = tok)) as [Ha|Ha].
  - destruct i as [|i]; simpl in *.
    + injection Hd as ->. eexists. split; [reflexivity|].
      repeat split; simpl. apply prefix_app_r. reflexivity.
    + exists d. split; [exact Hd | apply kept_refl].
  - destruct (findOneAndUpdate tok upd l) as [r l'] eqn:E. simpl in *.
    destruct i as [|i]; simpl in *.
    + injection Hd as ->. exists d. split; [reflexivity | apply kept_refl].
    + apply IH. exact Hd.
Qed.

Lemma extends_updateToken (doc : TokenDoc.t) (update : Update) (w : World) :
  extends w (snd (_updateToken doc update w)).
Proof.
  unfold _updateToken, bind, perform. simpl.
  pose proof (findOneAndUpdate_length (TokenDoc.token doc) update (tokens w)) as Hl.
  pose proof (findOneAndUpdate_kept (TokenDoc.token doc) update (tokens w)) as Hk.
  destruct (findOneAndUpdate (TokenDoc.token doc) update (tokens w)) as [value l].
  simpl in *. repeat split; simpl.
  - apply prefix_app_r. reflexivity.
  - lia.
  - exact Hk.
Qed.

Lemma execAll_extends (ops : list Operation) (w : World) :
  extends w (execAll ops w).
Proof.
  apply (preserves_execAll extends).
  - intros ev w' _. apply extends_asked.
  - intros n w'. apply extends_asked.
  - apply extends_insertOne.
  - apply extends_updateToken.
Qed.

(** X2: the users collection is never written.  After any sequence of
    createToken, revokeToken, listTokens and validateToken calls, with any
    arguments, it is what it was; and so it is after validateUser. *)
Theorem X2_users_never_written :
  (forall ops w, users (execAll ops w) = users w) /\
  (forall groups user w, users (snd (validateUser groups user w)) = users w).
Proof.
  split.
  - intros ops w. apply (execAll_extends ops w).
  - intros groups user w.
    apply (preserves_validateUser extends
             (fun ev w' _ => extends_asked w' [ev]) groups user w).
Qed.

(** X3: token documents are never removed or rewritten.  After any
    sequence of calls every document is still at its place with the same
    token, user and expiry time, and with its former history as a prefix
    of its history: entries are only ever appended. *)
Theorem X3_documents_kept (ops : list Operation) (w : World) :
  (length (tokens w) <= length (tokens (execAll ops w)))%nat /\
  (forall i d, tokens w !! i = Some d ->
     exists d', tokens (execAll ops w) !! i = Some d' /\
                TokenDoc.token d' = TokenDoc.token d /\
                TokenDoc.user d' = TokenDoc.user d /\
                TokenDoc.expiryTime d' = TokenDoc.expiryTime d /\
                TokenDoc.hist d `prefix_of` TokenDoc.hist d').
Proof.
  destruct (execAll_extends ops w) as (_ & _ & Hl & Hd). split; [exact Hl|].
  intros i d Hi. destruct (Hd i d Hi) as (d' & Hi' & K). exists d'. split; assumption.
Qed.

Lemma X3_documents_kept_witness :
  exists d',
    tokens (execAll
              [Revoke 2000 (JsString "user@example.com") (JsString "AAAA")
                 (JsString "bye");
               Create moment.utc 3000 (Resolved (repeat x00 12 ++ repeat xff 12))
                 (JsString "user@example.com") (JsString "new")]
              (mkWorld [TokenDoc.mk "AAAA" "valid" [revokeEntry 5 "made"]
                          (Some "user@example.com") (Some 9000)] [] []))
      !! 0%nat = Some d' /\
    TokenDoc.expiryTime d' = Some 9000 /\
    [revokeEntry 5 "made"] `prefix_of` TokenDoc.hist d'.
Proof.
  destruct (proj2 (X3_documents_kept
              [Revoke 2000 (JsString "user@example.com") (JsString "AAAA")
                 (JsString "bye");
               Create moment.utc 3000 (Resolved (repeat x00 12 ++ repeat xff 12))
                 (JsString "user@example.com") (JsString "new")]
              (mkWorld [TokenDoc.mk "AAAA" "valid" [revokeEntry 5 "made"]
                          (Some "user@example.com") (Some 9000)] [] []))
              0%nat
              (TokenDoc.mk "AAAA" "valid" [revokeEntry 5 "made"]
                 (Some "user@example.com") (Some 9000)))
    as (d' & Hd' & _ & _ & He & Hh).
  - reflexivity.
  - exists d'. split; [exact Hd'|]. split; [exact He | exact Hh].
Defined.

(** ** Reading calls *)

Lemma asked_nil (w : World) : asked w [] = w.
Proof. destruct w. unfold asked. simpl. rewrite app_nil_r. reflexivity. Qed.

Lemma asked_asked (w : World) (e1 e2 : list IoEvent) :
  asked (asked w e1) e2 = asked w (e1 ++ e2).
Proof. unfold asked. simpl. rewrite app_assoc. reflexivity. Qed.

#[global] Instance readsOnly_preorder : PreOrder readsOnly.
Proof.
  split.
  - intros w. exists []. split; [symmetry; apply asked_nil | reflexivity].
  - intros w1 w2 w3 (e1 & -> & H1) (e2 & -> & H2).
    exists (e1 ++ e2). split; [apply asked_asked|].
    rewrite forallb_app, H1, H2. reflexivity.
Qed.

Lemma readsOnly_read (ev : IoEvent) (w : World) :
  isRead ev = true -> readsOnly w (asked w [ev]).
Proof. intros H. exists [ev]. split; [reflexivity|]. simpl. rewrite H. reflexivity. Qed.

(** X4: listTokens, validateToken and validateUser only read.  Whatever
    their arguments and outcome, the world afterwards is the one before
    with some count, next or toArray events added to the log; no document
    is inserted or updated and the random source is not used. *)
Theorem X4_reading_calls_only_read :
  (forall user w, readsOnly w (snd (listTokens user w))) /\
  (forall now groups token w, readsOnly w (snd (validateToken now groups token w))) /\
  (forall groups user w, readsOnly w (snd (validateUser groups user w))).
Proof.
  split; [|split]; intros.
  - apply (preserves_listTokens readsOnly readsOnly_read).
  - apply (preserves_validateToken readsOnly readsOnly_read).
  - apply (preserves_validateUser readsOnly readsOnly_read).
Qed.

(** ** Refused calls *)

Lemma refused_io {A} (r : Outcome A * World) (w : World) :
  refused r w -> io (snd r) = io w.
Proof. intros (msg & ->). reflexivity. Qed.

Lemma io_after (w w' : World) (evs : list IoEvent) :
  extends (asked w evs) w' -> (length (io w) + length evs <= length (io w'))%nat.
Proof.
  intros (_ & Hp & _). apply prefix_length in Hp. simpl in Hp.
  rewrite length_app in Hp. exact Hp.
Qed.

Lemma extends_validateUser (groups user : JsValue) (w : World) :
  extends w (snd (validateUser groups user w)).
Proof.
  apply (preserves_validateUser extends (fun ev w' _ => extends_asked w' [ev])).
Qed.

(** With valid arguments each call reaches the random source or the
    store. *)
Lemma createToken_io (zone : moment.Zone) (now : Z)
    (random : Outcome (list byte)) (user justification : JsValue) (w : World) :
  validString user && validString justification = true ->
  (length (io w) < length (io (snd (createToken zone now random user justification w))))%nat.
Proof.
  intros [Hu Hj]%andb_prop.
  destruct (validString_ok "createToken" "user" user Hu) as (u & -> & Eu).
  destruct (validString_ok "createToken" "justification" justification Hj)
    as (j & -> & Ej).
  unfold createToken, bind at 1, lift. rewrite Eu, Ej.
  unfold generateTokenPromise, insertOne, bind, perform, ret, reject. simpl.
  destruct random; simpl; rewrite !length_app; simpl; lia.
Qed.

Lemma revokeToken_io (now : Z) (user token justification : JsValue) (w : World) :
  validString user && validString token && validString justification = true ->
  (length (io w)
   < length (io (snd (revokeToken now user token justification w))))%nat.
Proof.
  intros [[Hu Ht]%andb_prop Hj]%andb_prop.
  destruct (validString_ok "revokeToken" "user" user Hu) as (u & -> & Eu).
  destruct (validString_ok "revokeToken" "token" token Ht) as (t & -> & Et).
  destruct (validString_ok "revokeToken" "justification" justification Hj)
    as (j & -> & Ej).
  unfold revokeToken, bind at 1, lift. rewrite Eu, Et, Ej.
  unfold_lookup.
  destruct (length (filter (fun d => TokenDoc.token d = t) (tokens w)) =? 1)%nat;
    simpl; [|rewrite length_app; simpl; lia].
  destruct (head (filter (fun d => TokenDoc.token d = t) (tokens w))) as [doc|];
    simpl; [|rewrite !length_app; simpl; lia].
  destruct (decide (Some u = TokenDoc.user doc)); simpl;
    [|rewrite !length_app; simpl; lia].
  unfold _updateToken, bind, perform. simpl.
  destruct (findOneAndUpdate _ _ (tokens w)) as [value l]. simpl.
  rewrite !length_app. simpl. lia.
Qed.

Lemma validateUser_io (groups user : JsValue) (w : World) :
  instanceof_Array groups && validString user = true ->
  (length (io w) < length (io (snd (validateUser groups user w))))%nat.
Proof.
  intros [Hg Hu]%andb_prop.
  destruct groups as [| |b|n|s|gs]; try discriminate.
  destruct (validString_ok "validateUser" "user" user Hu) as (u & -> & Eu).
  unfold validateUser, bind at 1, lift.
  replace (_validate "validateUser" "groups" (JsArray gs) None)
    with (Resolved tt) by reflexivity.
  cbn [obind]. rewrite Eu. unfold_lookup.
  destruct (length (filter (fun d => UserDoc.user d = u) (users w)) =? 1)%nat;
    simpl; [|rewrite length_app; simpl; lia].
  destruct (head (filter (fun d => UserDoc.user d = u) (users w)));
    simpl; rewrite !length_app; simpl; lia.
Qed.

Lemma validateToken_io (now : Z) (groups token : JsValue) (w : World) :
  instanceof_Array groups && validString token = true ->
  (length (io w) < length (io (snd (validateToken now groups token w))))%nat.
Proof.
  intros [Hg Ht]%andb_prop.
  destruct groups as [| |b|n|s|gs]; try discriminate.
  destruct (validString_ok "validateToken" "token" token Ht) as (t & -> & Et).
  unfold validateToken, bind at 1, lift.
  replace (_validate "validateToken" "groups" (JsArray gs) None)
    with (Resolved tt) by reflexivity.
  cbn [obind instanceof_Array assert]. rewrite Et. unfold_lookup.
  destruct (length (filter (fun d => TokenDoc.token d = t) (tokens w)) =? 1)%nat;
    simpl; [|rewrite length_app; simpl; lia].
  destruct (head (filter (fun d => TokenDoc.token d = t) (tokens w))) as [doc|];
    simpl; [|rewrite !length_app; simpl; lia].
  destruct (String.eqb (TokenDoc.status doc) constants.TOKEN_STATUS_REVOKED);
    simpl; [rewrite !length_app; simpl; lia|].
  destruct (match TokenDoc.expiryTime doc with
            | Some e => moment.isAfter now e
            | None => false
            end); simpl; [rewrite !length_app; simpl; lia|].
  match goal with
  | |- context [validateUser ?g ?u ?w'] =>
      pose proof (extends_validateUser g u w') as (_ & Hp & _)
  end.
  apply prefix_length in Hp. simpl in Hp. rewrite !length_app in Hp.
  simpl in Hp. lia.
Qed.

Ltac refute_refused H lemma :=
  apply refused_io in H; pose proof lemma as Hgrow; rewrite H in Hgrow; lia.

(** X5: a call is refused for its arguments, by a failed assertion and
    before any I/O, exactly when they are not valid: createToken and
    revokeToken want each argument to be a string holding more than white
    space; listTokens wants a non-empty string; validateToken and
    validateUser want an array and such a string. *)
Theorem X5_refused_iff_invalid :
  (forall zone now random user justification w,
      refused (createToken zone now random user justification w) w
      <-> validString user && validString justification = false) /\
  (forall now user token justification w,
      refused (revokeToken now user token justification w) w
      <-> validString user && validString token && validString justification
          = false) /\
  (forall user w,
      refused (listTokens user w) w <-> nonEmptyString user = false) /\
  (forall now groups token w,
      refused (validateToken now groups token w) w
      <-> instanceof_Array groups && validString token = false) /\
  (forall groups user w,
      refused (validateUser groups user w) w
      <-> instanceof_Array groups && validString user = false).
Proof.
  split; [|split; [|split; [|split]]]; intros; split.
  - intros H. apply not_true_is_false. intros Hv.
    refute_refused H (createToken_io zone now random user justification w Hv).
  - intros Hv. unfold refused, createToken, bind at 1, lift.
    destruct (validString user) eqn:Hu.
    + destruct (validString_ok "createToken" "user" user Hu) as (u & -> & ->).
      destruct (validString_ko "createToken" "justification" justification Hv)
        as (msg & ->). simpl. eauto.
    + destruct (validString_ko "createToken" "user" user Hu) as (msg & ->).
      simpl. eauto.
  - intros H. apply not_true_is_false. intros Hv.
    refute_refused H (revokeToken_io now user token justification w Hv).
  - intros Hv. unfold refused, revokeToken, bind at 1, lift.
    destruct (validString user) eqn:Hu.
    + destruct (validString_ok "revokeToken" "user" user Hu) as (u & -> & ->).
      destruct (validString token) eqn:Ht.
      * destruct (validString_ok "revokeToken" "token" token Ht) as (t & -> & ->).
        destruct (validString_ko "revokeToken" "justification" justification Hv)
          as (msg & ->). simpl. eauto.
      * destruct (validString_ko "revokeToken" "token" token Ht) as (msg & ->).
        simpl. eauto.
    + destruct (validString_ko "revokeToken" "user" user Hu) as (msg & ->).
      simpl. eauto.
  - intros H. apply refused_io in H.
    destruct user as [| |b|n|s|xs]; try reflexivity. simpl.
    destruct (String.eqb s "") eqn:E; [reflexivity|]. exfalso.
    unfold listTokens, bind, lift, perform, assert, obind in H. simpl in H.
    rewrite E in H. simpl in H.
    apply (f_equal length) in H. rewrite length_app in H. simpl in H. lia.
  - intros Hv. unfold refused, listTokens, bind, lift, assert, obind.
    destruct user as [| |b|n|s|xs]; simpl in *; eauto.
    + destruct b; simpl; eauto.
    + destruct (n =? 0); simpl; eauto.
    + apply negb_false_iff in Hv. rewrite Hv. simpl. eauto.
  - intros H. apply not_true_is_false. intros Hv.
    refute_refused H (validateToken_io now groups token w Hv).
  - intros Hv. unfold refused, validateToken, bind at 1, lift.
    destruct (validate_groups_cases "validateToken" groups)
      as [(gs & -> & E) | (Hi & [(msg & E) | E])]; rewrite E; simpl.
    + simpl in Hv.
      destruct (validString_ko "validateToken" "token" token Hv) as (msg & ->).
      simpl. eauto.
    + eauto.
    + rewrite Hi. simpl. eauto.
  - intros H. apply not_true_is_false. intros Hv.
    refute_refused H (validateUser_io groups user w Hv).
  - intros Hv. unfold refused, validateUser, bind at 1, lift.
    destruct (validate_groups_cases "validateUser" groups)
      as [(gs & -> & E) | (Hi & [(msg & E) | E])]; rewrite E; simpl.
    + simpl in Hv.
      destruct (validString_ko "validateUser" "user" user Hv) as (msg & ->).
      simpl. eauto.
    + eauto.
    + destruct groups; simpl in *; eauto; discriminate.
Qed.

(** ** Distinct random bytes, distinct tokens *)

(** X6: the encoding loses nothing.  Two buffers of 24 random bytes that
    differ give different tokens, so tokens collide only when the random
    source repeats itself. *)
Theorem X6_token_of_buffer_injective (buf buf' : list byte) :
  length buf = 24%nat -> length buf' = 24%nat ->
  token_of_buffer buf = token_of_buffer buf' -> buf = buf'.
Proof. apply (token_of_buffer_inj_triples 8). Qed.

Lemma X6_token_of_buffer_injective_witness :
  repeat x00 12 ++ repeat xff 12 = repeat x00 12 ++ repeat xff 12.
Proof.
  apply (X6_token_of_buffer_injective (repeat x00 12 ++ repeat xff 12)
           (repeat x00 12 ++ repeat xff 12)); reflexivity.
Defined.

(** ** Exact outcomes, for use below *)

Lemma validateNoEmptyString_resolved (scope name : string) (v : JsValue) (s : string) :
  _validateNoEmptyString scope name v (Some "string") = Resolved s ->
  v = JsString s /\ trim s <> "".
Proof.
  intros E. destruct (validString v) eqn:Hv.
  - destruct (validString_ok scope name v Hv) as (s' & -> & E').
    rewrite E' in E. injection E as ->. split; [reflexivity|].
    simpl in Hv. apply negb_true_iff in Hv. rewrite trim_empty_iff. congruence.
  - destruct (validString_ko scope name v Hv) as (msg & E').
    rewrite E' in E. discriminate.
Qed.

Lemma length_one {A} (l : list A) : length l = 1%nat -> exists d, l = [d].
Proof. destruct l as [|d [|]]; try discriminate. eauto. Qed.

Lemma validateToken_not_one (now : Z) (gs : list string) (t : string) (w : World) :
  trim t <> "" ->
  length (tokensMatching t w) <> 1%nat ->
  validateToken now (JsArray gs) (JsString t) w
  = (Rejected (DbError UNEXPECTED_NUM_DOCS),
     asked w [Count constants.COLLECTION_TOKENS (ByToken t)]).
Proof.
  intros Ht Hlen. unfold validateToken, bind at 1, lift.
  replace (_validate "validateToken" "groups" (JsArray gs) None)
    with (Resolved tt) by reflexivity.
  cbn [obind instanceof_Array assert].
  rewrite validateNoEmptyString_ok by exact Ht. unfold_lookup.
  apply Nat.eqb_neq in Hlen. rewrite Hlen. reflexivity.
Qed.

Lemma validateToken_one (now : Z) (gs : list string) (t : string) (w : World)
    (doc : TokenDoc.t) :
  trim t <> "" ->
  tokensMatching t w = [doc] ->
  validateToken now (JsArray gs) (JsString t) w
  = (if String.eqb (TokenDoc.status doc) constants.TOKEN_STATUS_REVOKED
     then ret false
     else if match TokenDoc.expiryTime doc with
             | Some e => moment.isAfter now e
             | None => false
             end
     then ret false
     else validateUser (JsArray gs) (field (TokenDoc.user doc)))
      (asked w [Count constants.COLLECTION_TOKENS (ByToken t);
                Next constants.COLLECTION_TOKENS (ByToken t)]).
Proof.
  intros Ht Hdoc. unfold validateToken, bind at 1, lift.
  replace (_validate "validateToken" "groups" (JsArray gs) None)
    with (Resolved tt) by reflexivity.
  cbn [obind instanceof_Array assert].
  rewrite validateNoEmptyString_ok by exact Ht. unfold_lookup.
  repeat (rewrite Hdoc; simpl). rewrite <- app_assoc. reflexivity.
Qed.

Lemma validateUser_not_one (gs : list string) (u : string) (w : World) :
  trim u <> "" ->
  length (usersMatching u w) <> 1%nat ->
  validateUser (JsArray gs) (JsString u) w
  = (Rejected (DbError UNEXPECTED_NUM_DOCS),
     asked w [Count constants.COLLECTION_USERS (ByUser u)]).
Proof.
  intros Hu Hlen. unfold usersMatching in Hlen.
  unfold validateUser, bind, lift.
  rewrite validateNoEmptyString_ok by exact Hu.
  unfold cursorHasExactlyOneDoc, count, bind, perform, reject, asked. simpl.
  apply Nat.eqb_neq in Hlen. rewrite Hlen. reflexivity.
Qed.

Lemma listTokens_ok (u : string) (w : World) :
  u <> "" ->
  listTokens (JsString u) w
  = (Resolved (merge_sort status_desc (tokensOf u w)),
     asked w [ToArray constants.COLLECTION_TOKENS (ByUser u)]).
Proof.
  intros Hne. unfold listTokens, bind, lift, perform, assert, obind, asked, tokensOf.
  simpl. rewrite (eqb_empty_false u) by exact Hne. reflexivity.
Qed.

Lemma tokensMatching_app (t : string) (l : list TokenDoc.t) (doc : TokenDoc.t)
    (us : list UserDoc.t) (evs : list IoEvent) :
  TokenDoc.token doc = t ->
  tokensMatching t (mkWorld (l ++ [doc]) us evs)
  = filter (fun d => TokenDoc.token d = t) l ++ [doc].
Proof.
  intros Hd. unfold tokensMatching. simpl.
  rewrite filter_app, filter_cons, filter_nil.
  rewrite decide_True by exact Hd. reflexivity.
Qed.

(** Every way a call of revokeToken can go. *)
Lemma revokeToken_cases (now : Z) (user token justification : JsValue) (w : World) :
  let call := revokeToken now user token justification w in
  refused call w
  \/ exists u t j,
       user = JsString u /\ token = JsString t /\ justification = JsString j /\
       trim u <> "" /\ trim t <> "" /\ trim j <> "" /\
       ((length (tokensMatching t w) <> 1%nat /\
         call = (Rejected (DbError UNEXPECTED_NUM_DOCS),
                 asked w [Count constants.COLLECTION_TOKENS (ByToken t)]))
        \/ (exists doc,
              tokensMatching t w = [doc] /\ TokenDoc.user doc <> Some u /\
              call = (Rejected (Error USER_NOT_TOKEN_OWNER),
                      asked w [Count constants.COLLECTION_TOKENS (ByToken t);
                               Next constants.COLLECTION_TOKENS (ByToken t)]))
        \/ (exists doc l1 l2,
              tokensMatching t w = [doc] /\ TokenDoc.user doc = Some u /\
              tokens w = l1 ++ doc :: l2 /\
              filter (fun x => TokenDoc.token x = t) l1 = [] /\
              filter (fun x => TokenDoc.token x = t) l2 = [] /\
              call = (Resolved
                        (Some (applyUpdate
                                 (mkUpdate constants.TOKEN_STATUS_REVOKED
                                    (revokeEntry now j)) doc)),
                      mkWorld
                        (l1 ++ applyUpdate
                                 (mkUpdate constants.TOKEN_STATUS_REVOKED
                                    (revokeEntry now j)) doc :: l2)
                        (users w)
                        (io w ++ [Count constants.COLLECTION_TOKENS (ByToken t);
                                  Next constants.COLLECTION_TOKENS (ByToken t);
                                  FindOneAndUpdate constants.COLLECTION_TOKENS
                                    (ByToken t)])))).
Proof.
  intros call.
  destruct (validateNoEmptyString_cases "revokeToken" "user" user)
    as [(u & Hu & Eu) | (msg & E)].
  2:{ left. subst call. unfold refused, revokeToken, bind at 1, lift.
      rewrite E. simpl. eauto. }
  destruct (validateNoEmptyString_cases "revokeToken" "token" token)
    as [(t & Ht & Et) | (msg & E)].
  2:{ left. subst call. unfold refused, revokeToken, bind at 1, lift.
      rewrite Eu, E. simpl. eauto. }
  destruct (validateNoEmptyString_cases "revokeToken" "justification" justification)
    as [(j & Hj & Ej) | (msg & E)].
  2:{ left. subst call. unfold refused, revokeToken, bind at 1, lift.
      rewrite Eu, Et, E. simpl. eauto. }
  apply validateNoEmptyString_resolved in Eu as [_ Tu], Et as [_ Tt], Ej as [_ Tj].
  right. exists u, t, j. subst user token justification call.
  repeat (split; [reflexivity || assumption|]).
  destruct (Nat.eq_dec (length (tokensMatching t w)) 1%nat) as [Hone|Hne].
  - apply length_one in Hone as [doc Hdoc]. right.
    destruct (decide (TokenDoc.user doc = Some u)) as [Hown|Hown].
    + right. destruct (revokeToken_owner now u t j w Tu Tt Tj doc Hdoc Hown)
        as (l1 & l2 & Hw & H1 & H2 & E).
      exists doc, l1, l2. repeat (split; [assumption|]). exact E.
    + left. exists doc. repeat (split; [assumption|]).
      apply (revokeToken_not_owner now u t j w Tu Tt Tj doc); assumption.
  - left. split; [exact Hne|]. apply revokeToken_not_one; assumption.
Qed.

(** ** createToken, every outcome *)

(** X7: createToken resolves exactly when both arguments are valid strings
    and the random source delivers; whenever it does not resolve nothing
    has been stored; and with valid arguments an error of the random
    source ends the process: after that one request the callback throws
    an uncaught TypeError, so that no rejection reaches the caller. *)
Theorem X7_createToken_outcomes (zone : moment.Zone) (now : Z)
    (random : Outcome (list byte)) (user justification : JsValue) (w : World) :
  let call := createToken zone now random user justification w in
  ((exists doc, fst call = Resolved doc)
   <-> validString user && validString justification = true
       /\ exists buf, random = Resolved buf) /\
  (forall e, fst call = Rejected e -> tokens (snd call) = tokens w) /\
  (forall err,
      validString user && validString justification = true ->
      random = Rejected err ->
      call = (Rejected
                (Uncaught (TypeError "Cannot read property 'toString' of undefined")),
              asked w [RandomBytes 24])).
Proof.
  intros call. subst call.
  assert (Hvalid : validString user && validString justification = true ->
                   exists u j, user = JsString u /\ justification = JsString j /\
                               trim u <> "" /\ trim j <> "").
  { intros [Hu Hj]%andb_prop.
    destruct (validString_ok "createToken" "user" user Hu) as (u & -> & Eu).
    destruct (validString_ok "createToken" "justification" justification Hj)
      as (j & -> & Ej).
    apply validateNoEmptyString_resolved in Eu as [_ Tu], Ej as [_ Tj]. eauto 6. }
  assert (Hfail : forall err,
             validString user && validString justification = true ->
             createToken zone now (Rejected err) user justification w
             = (Rejected
                  (Uncaught (TypeError "Cannot read property 'toString' of undefined")),
                asked w [RandomBytes 24])).
  { intros err (u & j & -> & -> & Tu & Tj)%Hvalid.
    unfold createToken, bind at 1, lift.
    rewrite !validateNoEmptyString_ok by assumption. reflexivity. }
  split; [|split].
  - split.
    + intros [doc Hdoc].
      destruct (validString user && validString justification) eqn:Hv.
      * split; [reflexivity|]. destruct random as [buf|err]; [eauto|].
        rewrite (Hfail err eq_refl) in Hdoc. discriminate.
      * exfalso. revert Hdoc. unfold createToken, bind at 1, lift.
        destruct (validString user) eqn:Hu.
        -- destruct (validString_ok "createToken" "user" user Hu) as (u & -> & ->).
           destruct (validString_ko "createToken" "justification" justification Hv)
             as (msg & ->). discriminate.
        -- destruct (validString_ko "createToken" "user" user Hu) as (msg & ->).
           discriminate.
    + intros [(u & j & -> & -> & Tu & Tj)%Hvalid [buf ->]].
      rewrite createToken_ok by assumption. eauto.
  - intros e He.
    destruct (createToken_tokens zone now random user justification w)
      as [[_ E] | (doc & Hr & _)]; [exact E|].
    rewrite Hr in He. discriminate.
  - intros err Hv ->. apply Hfail. exact Hv.
Qed.

Lemma X7_createToken_outcomes_witness :
  createToken moment.utc 0 (Rejected (SystemError "entropy"))
    (JsString "user@example.com") (JsString "why") (mkWorld [] [] [])
  = (Rejected (Uncaught (TypeError "Cannot read property 'toString' of undefined")),
     asked (mkWorld [] [] []) [RandomBytes 24]).
Proof.
  apply (proj2 (proj2 (X7_createToken_outcomes moment.utc 0
                         (Rejected (SystemError "entropy"))
                         (JsString "user@example.com") (JsString "why")
                         (mkWorld [] [] []))) (SystemError "entropy"));
    reflexivity.
Defined.

(** ** Calls one after the other *)

Section AfterCreate.

Variables (zone : moment.Zone) (now : Z) (buf : list byte) (u j : string)
  (w : World).
Hypothesis (Hu : trim u <> "") (Hj : trim j <> "") (Hbuf : length buf = 24%nat).

Let token := token_of_buffer buf.
Let doc := _buildToken zone now token u j.
Let created := createToken zone now (Resolved buf) (JsString u) (JsString j) w.

Lemma created_world :
  created = (Resolved doc,
             mkWorld (tokens w ++ [doc]) (users w)
               (io w ++ [RandomBytes 24;
                         InsertOne constants.COLLECTION_TOKENS token])).
Proof. apply createToken_ok; assumption. Qed.

Lemma created_matching :
  tokensMatching token (snd created) = tokensMatching token w ++ [doc].
Proof. rewrite created_world. apply tokensMatching_app. reflexivity. Qed.

(** X8: the owner can revoke what createToken just made.  When the
    generated token was not in the store before, revoking it for the same
    user resolves with the document, now REVOKED, whose history is the
    entry of the creation followed by the entry of the revocation. *)
Theorem X8_create_then_revoke (now' : Z) (j' : string) :
  trim j' <> "" ->
  tokensMatching token w = [] ->
  exists e,
    TokenDoc.hist doc = [e] /\
    fst (revokeToken now' (JsString u) (JsString token) (JsString j') (snd created))
    = Resolved (Some (TokenDoc.mk token constants.TOKEN_STATUS_REVOKED
                        [e; revokeEntry now' j'] (Some u)
                        (TokenDoc.expiryTime doc))).
Proof using Hu Hj Hbuf.
  intros Hj' Hfresh. eexists. split; [reflexivity|].
  assert (Hone : tokensMatching token (snd created) = [doc])
    by (rewrite created_matching, Hfresh; reflexivity).
  destruct (revokeToken_owner now' u token j' (snd created) Hu
              (token_of_buffer_valid buf Hbuf) Hj' doc Hone eq_refl)
    as (l1 & l2 & _ & _ & _ & ->).
  reflexivity.
Qed.

(** X9: what createToken made is listed.  The document it returned is
    among the documents listTokens gives for the same user right after. *)
Theorem X9_create_then_list :
  exists l,
    fst (listTokens (JsString u) (snd created)) = Resolved l /\ doc ∈ l /\
    fst created = Resolved doc.
Proof using Hu Hj.
  rewrite listTokens_ok by (apply trim_nonempty; exact Hu).
  eexists. split; [reflexivity|]. split.
  - rewrite merge_sort_Permutation. unfold tokensOf.
    rewrite created_world. simpl. apply list_elem_of_filter. split; [reflexivity|].
    apply elem_of_app. right. left.
  - rewrite created_world. reflexivity.
Qed.

(** X10: a collision spoils the token.  When the generated token is
    already in the store, createToken stores a second document all the
    same, and from then on validateToken and revokeToken reject that token
    with DbError(UNEXPECTED_NUM_DOCS), for the new owner and the old. *)
Theorem X10_collision (now' : Z) (gs : list string) (u' j' : string) :
  tokensMatching token w <> [] ->
  trim u' <> "" -> trim j' <> "" ->
  fst created = Resolved doc /\
  fst (validateToken now' (JsArray gs) (JsString token) (snd created))
  = Rejected (DbError UNEXPECTED_NUM_DOCS) /\
  fst (revokeToken now' (JsString u') (JsString token) (JsString j') (snd created))
  = Rejected (DbError UNEXPECTED_NUM_DOCS) /\
  tokens (snd (revokeToken now' (JsString u') (JsString token) (JsString j')
                 (snd created)))
  = tokens w ++ [doc].
Proof using Hu Hj Hbuf.
  intros Hold Hu' Hj'.
  assert (Hlen : length (tokensMatching token (snd created)) <> 1%nat).
  { rewrite created_matching, length_app. simpl.
    destruct (tokensMatching token w); [congruence | simpl; lia]. }
  split; [rewrite created_world; reflexivity|].
  rewrite (validateToken_not_one now' gs token (snd created)
             (token_of_buffer_valid buf Hbuf) Hlen).
  rewrite (revokeToken_not_one now' u' token j' (snd created) Hu'
             (token_of_buffer_valid buf Hbuf) Hj' Hlen).
  split; [reflexivity|]. split; [reflexivity|].
  rewrite created_world. reflexivity.
Qed.

End AfterCreate.

Lemma X8_create_then_revoke_witness :
  exists e r,
    TokenDoc.hist (_buildToken moment.utc 1500 (token_of_buffer (repeat x00 12 ++ repeat xff 12))
                     "user@example.com" "made") = [e] /\
    fst (revokeToken 2000 (JsString "user@example.com")
           (JsString (token_of_buffer (repeat x00 12 ++ repeat xff 12)))
           (JsString "bye")
           (snd (createToken moment.utc 1500 (Resolved (repeat x00 12 ++ repeat xff 12))
                   (JsString "user@example.com") (JsString "made")
                   (mkWorld [] [] []))))
    = Resolved (Some r) /\
    TokenDoc.hist r = [e; revokeEntry 2000 "bye"].
Proof.
  destruct (X8_create_then_revoke moment.utc 1500 (repeat x00 12 ++ repeat xff 12)
              "user@example.com" "made" (mkWorld [] [] [])
              ltac:(discriminate) ltac:(discriminate) eq_refl
              2000 "bye" ltac:(discriminate) eq_refl) as (e & He & Hr).
  exists e. eexists. split; [exact He|]. split; [exact Hr | reflexivity].
Defined.

Lemma X9_create_then_list_witness :
  exists l,
    fst (listTokens (JsString "user@example.com")
           (snd (createToken moment.utc 1500 (Resolved (repeat x00 12 ++ repeat xff 12))
                   (JsString "user@example.com") (JsString "made")
                   (mkWorld [] [] []))))
    = Resolved l /\
    _buildToken moment.utc 1500 (token_of_buffer (repeat x00 12 ++ repeat xff 12))
      "user@example.com" "made" ∈ l.
Proof.
  destruct (X9_create_then_list moment.utc 1500 (repeat x00 12 ++ repeat xff 12)
              "user@example.com" "made" (mkWorld [] [] [])
              ltac:(discriminate) ltac:(discriminate)) as (l & Hl & Hin & _).
  exists l. split; [exact Hl | exact Hin].
Defined.

Lemma X10_collision_witness :
  fst (validateToken 2000 (JsArray [])
         (JsString (token_of_buffer (repeat x00 12 ++ repeat xff 12)))
         (snd (createToken moment.utc 1500 (Resolved (repeat x00 12 ++ repeat xff 12))
                 (JsString "new@example.com") (JsString "made")
                 (mkWorld [TokenDoc.mk "AAAAAAAAAAAAAAAA________________" "valid" []
                             (Some "old@example.com") None] [] []))))
  = Rejected (DbError UNEXPECTED_NUM_DOCS).
Proof.
  apply (X10_collision moment.utc 1500 (repeat x00 12 ++ repeat xff 12)
           "new@example.com" "made"
           (mkWorld [TokenDoc.mk "AAAAAAAAAAAAAAAA________________" "valid" []
                       (Some "old@example.com") None] [] [])
           ltac:(discriminate) ltac:(discriminate) eq_refl
           2000 [] "old@example.com" "bye"
           ltac:(discriminate) ltac:(discriminate) ltac:(discriminate)).
Defined.

(** X11: a revoked token no longer validates.  After a revocation that
    resolved, validateToken for that token resolves with false, whatever
    groups are required, at whatever time, and whatever the users
    collection holds. *)
Theorem X11_revoke_then_validate (now now' : Z) (user token justification : JsValue)
    (gs : list string) (w : World) (r : option TokenDoc.t) :
  fst (revokeToken now user token justification w) = Resolved r ->
  fst (validateToken now' (JsArray gs) token
         (snd (revokeToken now user token justification w)))
  = Resolved false.
Proof.
  intros Hr.
  destruct (revokeToken_cases now user token justification w)
    as [(msg & E) | (u & t & j & -> & -> & -> & Tu & Tt & Tj & Hcase)].
  { rewrite E in Hr. discriminate. }
  destruct Hcase as [[_ E] | [(doc & _ & _ & E) | (doc & l1 & l2 & Hdoc & _ & _ & H1 & H2 & E)]];
    rewrite E in Hr |- *; try discriminate.
  cbn [snd].
  rewrite (validateToken_one now' gs t _
             (applyUpdate (mkUpdate constants.TOKEN_STATUS_REVOKED (revokeEntry now j))
                doc) Tt).
  - reflexivity.
  - unfold tokensMatching. simpl. rewrite filter_app, filter_cons, H1, H2. simpl.
    rewrite decide_True; [reflexivity|].
    assert (Hin : doc ∈ tokensMatching t w) by (rewrite Hdoc; left).
    unfold tokensMatching in Hin. apply list_elem_of_filter in Hin. tauto.
Qed.

Lemma X11_revoke_then_validate_witness :
  fst (validateToken 3000 (JsArray []) (JsString "AAAA")
         (snd (revokeToken 2000 (JsString "user@example.com") (JsString "AAAA")
                 (JsString "bye")
                 (mkWorld [TokenDoc.mk "AAAA" "valid" [] (Some "user@example.com") None]
                    [UserDoc.mk "user@example.com" (Some ["1"])] []))))
  = Resolved false.
Proof.
  eapply (X11_revoke_then_validate 2000 3000 (JsString "user@example.com")
            (JsString "AAAA") (JsString "bye") []
            (mkWorld [TokenDoc.mk "AAAA" "valid" [] (Some "user@example.com") None]
               [UserDoc.mk "user@example.com" (Some ["1"])] [])).
  reflexivity.
Defined.

(** X12: revokeToken resolves only with a revoked document of the caller.
    Whatever the arguments, a resolved call gave a document, never null:
    its token is the one asked for, its user is the calling user, its
    status is REVOKED and it is the one document of that token in the
    store afterwards. *)
Theorem X12_revokeToken_resolved (now : Z) (user token justification : JsValue)
    (w : World) (r : option TokenDoc.t) :
  fst (revokeToken now user token justification w) = Resolved r ->
  exists doc',
    r = Some doc' /\
    token = JsString (TokenDoc.token doc') /\
    user = field (TokenDoc.user doc') /\
    TokenDoc.status doc' = constants.TOKEN_STATUS_REVOKED /\
    tokensMatching (TokenDoc.token doc')
      (snd (revokeToken now user token justification w)) = [doc'].
Proof.
  intros Hr.
  destruct (revokeToken_cases now user token justification w)
    as [(msg & E) | (u & t & j & -> & -> & -> & Tu & Tt & Tj & Hcase)].
  { rewrite E in Hr. discriminate. }
  destruct Hcase as [[_ E] | [(doc & _ & _ & E) | (doc & l1 & l2 & Hdoc & Hown & _ & H1 & H2 & E)]];
    rewrite E in Hr |- *; try discriminate.
  injection Hr as <-. eexists. split; [reflexivity|].
  assert (Htok : TokenDoc.token doc = t).
  { assert (Hin : doc ∈ tokensMatching t w) by (rewrite Hdoc; left).
    unfold tokensMatching in Hin. apply list_elem_of_filter in Hin. tauto. }
  cbn [applyUpdate TokenDoc.token TokenDoc.user TokenDoc.status set_status snd].
  rewrite Htok, Hown. repeat (split; [reflexivity|]).
  unfold tokensMatching. simpl. rewrite filter_app, filter_cons, H1, H2. simpl.
  rewrite decide_True by exact Htok. reflexivity.
Qed.

Lemma X12_revokeToken_resolved_witness :
  exists doc',
    fst (revokeToken 2000 (JsString "user@example.com") (JsString "AAAA")
           (JsString "bye")
           (mkWorld [TokenDoc.mk "AAAA" "valid" [] (Some "user@example.com") None]
              [] []))
    = Resolved (Some doc') /\
    TokenDoc.status doc' = constants.TOKEN_STATUS_REVOKED.
Proof.
  destruct (X12_revokeToken_resolved 2000 (JsString "user@example.com")
              (JsString "AAAA") (JsString "bye")
              (mkWorld [TokenDoc.mk "AAAA" "valid" [] (Some "user@example.com") None]
                 [] [])
              (Some (TokenDoc.mk "AAAA" "revoked" [revokeEntry 2000 "bye"]
                       (Some "user@example.com") None)))
    as (doc' & Hr & _ & _ & Hs & _).
  - reflexivity.
  - exists doc'. split; [rewrite <- Hr; reflexivity | exact Hs].
Defined.

(** ** validateToken and the owner's user document *)

(** X13: for a token that is neither revoked nor expired a broken owner
    is an error, not false.  A token document without a user makes
    validateUser's assertion on the user fail, after the token was looked
    up; an owner with no document, or more than one, in the users
    collection gives DbError(UNEXPECTED_NUM_DOCS). *)
Theorem X13_validateToken_owner_errors (now : Z) (gs : list string) (t : string)
    (w : World) (doc : TokenDoc.t) :
  trim t <> "" ->
  tokensMatching t w = [doc] ->
  TokenDoc.status doc <> constants.TOKEN_STATUS_REVOKED ->
  (forall e, TokenDoc.expiryTime doc = Some e -> now <= e) ->
  (TokenDoc.user doc = None ->
     validateToken now (JsArray gs) (JsString t) w
     = (Rejected (AssertionError "validateUser: user is not defined"),
        asked w [Count constants.COLLECTION_TOKENS (ByToken t);
                 Next constants.COLLECTION_TOKENS (ByToken t)])) /\
  (forall u, TokenDoc.user doc = Some u -> trim u <> "" ->
     length (usersMatching u w) <> 1%nat ->
     validateToken now (JsArray gs) (JsString t) w
     = (Rejected (DbError UNEXPECTED_NUM_DOCS),
        asked w [Count constants.COLLECTION_TOKENS (ByToken t);
                 Next constants.COLLECTION_TOKENS (ByToken t);
                 Count constants.COLLECTION_USERS (ByUser u)])).
Proof.
  intros Ht Hdoc Hst Hexp.
  rewrite (validateToken_one now gs t w doc Ht Hdoc).
  apply String.eqb_neq in Hst. rewrite Hst.
  replace (match TokenDoc.expiryTime doc with
           | Some e => moment.isAfter now e
           | None => false
           end) with false.
  2:{ destruct (TokenDoc.expiryTime doc) as [e|]; [|reflexivity].
      symmetry. apply Z.ltb_ge, Hexp. reflexivity. }
  split.
  - intros ->. reflexivity.
  - intros u -> Hu Hlen. cbn [field].
    rewrite validateUser_not_one by assumption.
    rewrite asked_asked. reflexivity.
Qed.

Lemma X13_validateToken_owner_errors_witness :
  validateToken 5 (JsArray ["1"]) (JsString "DDDD")
    (mkWorld [TokenDoc.mk "DDDD" "valid" [] (Some "user@example.com") None] [] [])
  = (Rejected (DbError UNEXPECTED_NUM_DOCS),
     asked (mkWorld [TokenDoc.mk "DDDD" "valid" [] (Some "user@example.com") None]
              [] [])
       [Count constants.COLLECTION_TOKENS (ByToken "DDDD");
        Next constants.COLLECTION_TOKENS (ByToken "DDDD");
        Count constants.COLLECTION_USERS (ByUser "user@example.com")]).
Proof.
  refine (proj2 (X13_validateToken_owner_errors 5 ["1"] "DDDD"
                   (mkWorld [TokenDoc.mk "DDDD" "valid" []
                               (Some "user@example.com") None] [] [])
                   (TokenDoc.mk "DDDD" "valid" [] (Some "user@example.com") None)
                   _ _ _ _) "user@example.com" _ _ _); try discriminate.
  - reflexivity.
  - reflexivity.
Defined.

(** ** The required groups *)

Lemma memberOfAll_subset (gs gs' : list string) (ug : option (list string)) :
  (forall g, g ∈ gs' -> g ∈ gs) ->
  memberOfAll gs ug = true -> memberOfAll gs' ug = true.
Proof.
  intros Hsub. destruct ug as [ug|]; [|discriminate].
  rewrite !memberOfAll_spec. auto.
Qed.

(** The required groups enter the answer through the membership test
    alone. *)
Lemma validateUser_shape (user : JsValue) (w : World) :
  (exists e, forall gs, fst (validateUser (JsArray gs) user w) = Rejected e)
  \/ (exists ug, forall gs,
         fst (validateUser (JsArray gs) user w) = Resolved (memberOfAll gs ug)).
Proof.
  destruct (validateNoEmptyString_cases "validateUser" "user" user)
    as [(u & -> & E) | (msg & E)].
  - destruct (Nat.eq_dec (length (usersMatching u w)) 1%nat) as [Hone|Hne].
    + apply length_one in Hone as [doc Hdoc]. right. exists (UserDoc.groups doc).
      intros gs. apply validateNoEmptyString_resolved in E as [_ Tu].
      rewrite (validateUser_one gs u w doc Tu Hdoc). reflexivity.
    + left. eexists. intros gs. apply validateNoEmptyString_resolved in E as [_ Tu].
      rewrite (validateUser_not_one gs u w Tu Hne). reflexivity.
  - left. exists (AssertionError msg). intros gs.
    unfold validateUser, bind at 1, lift.
    replace (_validate "validateUser" "groups" (JsArray gs) None)
      with (Resolved tt) by reflexivity.
    cbn [obind]. rewrite E. reflexivity.
Qed.

Lemma validateToken_shape (now : Z) (token : JsValue) (w : World) :
  (exists e, forall gs, fst (validateToken now (JsArray gs) token w) = Rejected e)
  \/ (exists ug, forall gs,
         fst (validateToken now (JsArray gs) token w) = Resolved (memberOfAll gs ug)).
Proof.
  destruct (validateNoEmptyString_cases "validateToken" "token" token)
    as [(t & -> & E) | (msg & E)].
  - apply validateNoEmptyString_resolved in E as [_ Tt].
    destruct (Nat.eq_dec (length (tokensMatching t w)) 1%nat) as [Hone|Hne].
    + apply length_one in Hone as [doc Hdoc].
      destruct (String.eqb (TokenDoc.status doc) constants.TOKEN_STATUS_REVOKED)
        eqn:Hst.
      { right. exists None. intros gs.
        rewrite (validateToken_one now gs t w doc Tt Hdoc), Hst. reflexivity. }
      destruct (match TokenDoc.expiryTime doc with
                | Some e => moment.isAfter now e
                | None => false
                end) eqn:Hexp.
      { right. exists None. intros gs.
        rewrite (validateToken_one now gs t w doc Tt Hdoc), Hst, Hexp. reflexivity. }
      destruct (validateUser_shape (field (TokenDoc.user doc))
                  (asked w [Count constants.COLLECTION_TOKENS (ByToken t);
                            Next constants.COLLECTION_TOKENS (ByToken t)]))
        as [(e & He) | (ug & Hug)].
      * left. exists e. intros gs.
        rewrite (validateToken_one now gs t w doc Tt Hdoc), Hst, Hexp. apply He.
      * right. exists ug. intros gs.
        rewrite (validateToken_one now gs t w doc Tt Hdoc), Hst, Hexp. apply Hug.
    + left. eexists. intros gs.
      rewrite (validateToken_not_one now gs t w Tt Hne). reflexivity.
  - left. exists (AssertionError msg). intros gs.
    unfold validateToken, bind at 1, lift.
    replace (_validate "validateToken" "groups" (JsArray gs) None)
      with (Resolved tt) by reflexivity.
    cbn [obind instanceof_Array assert]. rewrite E. reflexivity.
Qed.

(** X14: requiring less never hurts, and errors do not depend on what is
    required.  When validateToken resolves with true for some groups it
    does so for any selection of them, in any order and with repetitions;
    the same holds for validateUser; and a rejection for one array of
    groups is the same rejection for every other. *)
Theorem X14_fewer_groups :
  (forall now token w gs gs',
      (forall g, g ∈ gs' -> g ∈ gs) ->
      fst (validateToken now (JsArray gs) token w) = Resolved true ->
      fst (validateToken now (JsArray gs') token w) = Resolved true) /\
  (forall user w gs gs',
      (forall g, g ∈ gs' -> g ∈ gs) ->
      fst (validateUser (JsArray gs) user w) = Resolved true ->
      fst (validateUser (JsArray gs') user w) = Resolved true) /\
  (forall now token w gs gs' e,
      fst (validateToken now (JsArray gs) token w) = Rejected e ->
      fst (validateToken now (JsArray gs') token w) = Rejected e).
Proof.
  split; [|split].
  - intros now token w gs gs' Hsub H.
    destruct (validateToken_shape now token w) as [(e & He) | (ug & Hug)].
    + rewrite He in H. discriminate.
    + rewrite Hug in H |- *. injection H as H.
      rewrite (memberOfAll_subset gs gs' ug Hsub H). reflexivity.
  - intros user w gs gs' Hsub H.
    destruct (validateUser_shape user w) as [(e & He) | (ug & Hug)].
    + rewrite He in H. discriminate.
    + rewrite Hug in H |- *. injection H as H.
      rewrite (memberOfAll_subset gs gs' ug Hsub H). reflexivity.
  - intros now token w gs gs' e H.
    destruct (validateToken_shape now token w) as [(e' & He) | (ug & Hug)].
    + rewrite He in H |- *. exact H.
    + rewrite Hug in H. discriminate.
Qed.

Lemma X14_fewer_groups_witness :
  fst (validateUser (JsArray ["5"]) (JsString "user@example.com")
         (mkWorld [] [UserDoc.mk "user@example.com" (Some ["1"; "2"; "5"])] []))
  = Resolved true.
Proof.
  apply (proj1 (proj2 X14_fewer_groups) (JsString "user@example.com")
           (mkWorld [] [UserDoc.mk "user@example.com" (Some ["1"; "2"; "5"])] [])
           ["1"; "5"] ["5"]).
  - intros g Hg. apply list_elem_of_singleton in Hg as ->. right. left.
  - reflexivity.
Defined.

(** ** The routes of app.js *)

(** X15: POST /createToken fails only with the random source, and then
    without an answer.  Its fixed user and message always pass the
    validation: when the random source delivers, the answer is 200 with
    the stored document, owned by the route's user and VALID; when it
    fails, the process ends on the uncaught TypeError of the callback,
    nothing is stored and no response is sent. *)
Theorem X15_postCreateToken (zone : moment.Zone) (now : Z) (w : World) :
  (forall buf,
      let doc := _buildToken zone now (token_of_buffer buf) app.user app.creation_msg in
      app.postCreateToken zone now (Resolved buf) w
      = (Some (app.mkResponse 200 (app.JsonDoc (Some doc))),
         mkWorld (tokens w ++ [doc]) (users w)
           (io w ++ [RandomBytes 24;
                     InsertOne constants.COLLECTION_TOKENS (token_of_buffer buf)]))
      /\ TokenDoc.user doc = Some "an8@sanger.ac.uk"
      /\ TokenDoc.status doc = constants.TOKEN_STATUS_VALID) /\
  (forall err,
      app.postCreateToken zone now (Rejected err) w
      = (None, asked w [RandomBytes 24])).
Proof.
  split.
  - intros buf doc. subst doc. unfold app.postCreateToken.
    rewrite createToken_ok by discriminate. repeat split.
  - intros err. unfold app.postCreateToken, createToken, bind at 1, lift.
    rewrite !validateNoEmptyString_ok by discriminate. reflexivity.
Qed.

(** X16: POST /revokeToken answers 200 exactly when the body's token is a
    string holding more than white space, exactly one document has it and
    that document belongs to the route's user.  Every other request, be
    the token missing, unknown, duplicated or someone else's, gets the
    same 500 of the error handler and leaves both collections as they
    were. *)
Theorem X16_postRevokeToken (now : Z) (reqBody : gmap string JsValue) (w : World) :
  let r := app.postRevokeToken now reqBody w in
  (app.statusCode (fst r) = 200
   <-> exists t doc,
         reqBody !! "token" = Some (JsString t) /\
         all_white_space t = false /\
         tokensMatching t w = [doc] /\
         TokenDoc.user doc = Some app.user) /\
  (app.statusCode (fst r) <> 200 ->
   fst r = app.mkResponse 500 (app.JsonError 500 "Internal server error") /\
   tokens (snd r) = tokens w /\ users (snd r) = users w).
Proof.
  intros r. subst r. unfold app.postRevokeToken.
  set (token := default JsUndefined (reqBody !! "token")).
  assert (Hbody : forall t, reqBody !! "token" = Some (JsString t)
                            <-> token = JsString t).
  { intros t. subst token. destruct (reqBody !! "token") as [v|]; simpl.
    - split; congruence.
    - split; discriminate. }
  destruct (revokeToken_cases now (JsString app.user) token
              (JsString app.revocation_msg) w)
    as [Href | (u & t & j & [= <-] & Htok & [= <-] & Tu & Tt & Tj & Hcase)].
  - pose proof Href as (msg & E). rewrite E. simpl. split; [|split; [reflexivity|split; reflexivity]].
    split; [discriminate|]. intros (t & doc & Ht & Hws & _). exfalso.
    apply Hbody in Ht. apply refused_io in Href.
    pose proof (revokeToken_io now (JsString app.user) token
                  (JsString app.revocation_msg) w) as Hgrow.
    rewrite Href in Hgrow. rewrite Ht in Hgrow. simpl in Hgrow. rewrite Hws in Hgrow.
    specialize (Hgrow eq_refl). lia.
  - destruct Hcase as [[Hlen E] | [(doc & Hdoc & Hown & E)
                                  | (doc & l1 & l2 & Hdoc & Hown & Hw & _ & _ & E)]];
      rewrite E; simpl.
    + split; [|split; [reflexivity|split; reflexivity]].
      split; [discriminate|]. intros (t' & doc & Ht' & _ & Hdoc & _). exfalso.
      apply Hbody in Ht'. rewrite Htok in Ht'. injection Ht' as <-.
      rewrite Hdoc in Hlen. apply Hlen. reflexivity.
    + split; [|split; [reflexivity|split; reflexivity]].
      split; [discriminate|]. intros (t' & doc' & Ht' & _ & Hdoc' & Hown'). exfalso.
      apply Hbody in Ht'. rewrite Htok in Ht'. injection Ht' as <-.
      rewrite Hdoc in Hdoc'. injection Hdoc' as <-. apply Hown. exact Hown'.
    + split; [|intros H; exfalso; apply H; reflexivity].
      split; [|reflexivity]. intros _. exists t, doc.
      split; [apply Hbody; exact Htok|]. split; [|split; assumption].
      destruct (all_white_space t) eqn:Hws; [|reflexivity].
      exfalso. apply Tt, trim_blank, Hws.
Qed.

Lemma X16_postRevokeToken_witness :
  fst (app.postRevokeToken 2000 (<["token" := JsString "zzzz"]> ∅)
         (mkWorld [TokenDoc.mk "AAAA" "valid" [] (Some "an8@sanger.ac.uk") None]
            [] []))
  = app.mkResponse 500 (app.JsonError 500 "Internal server error").
Proof.
  apply (proj2 (X16_postRevokeToken 2000 (<["token" := JsString "zzzz"]> ∅)
                  (mkWorld [TokenDoc.mk "AAAA" "valid" []
                              (Some "an8@sanger.ac.uk") None] [] []))).
  vm_compute. discriminate.
Defined.

(** X17: GET /listTokens never fails.  It always answers 200, with
    documents of the route's user only, each one a document of the store,
    and it changes neither collection. *)
Theorem X17_getListTokens (w : World) :
  exists l,
    app.getListTokens w
    = (app.mkResponse 200 (app.JsonDocs l),
       asked w [ToArray constants.COLLECTION_TOKENS (ByUser app.user)]) /\
    (forall d, d ∈ l <-> d ∈ tokens w /\ TokenDoc.user d = Some "an8@sanger.ac.uk").
Proof.
  unfold app.getListTokens. rewrite listTokens_ok by discriminate.
  eexists. split; [reflexivity|].
  intros d. rewrite merge_sort_Permutation. unfold tokensOf.
  rewrite list_elem_of_filter. tauto.
Qed.
